(** * VSOpenGLTemplate: the "Hello, cube!" application

    A shallow embedding of [ShaderHelpers.h], [Cube.h], [BaseApplication.h]
    and [HelloCube.cpp].

    Conventions of the embedding.
    - C [int], [unsigned int], [GLuint] and [GLint] values are integers in [Z];
      the two [unsigned int] frame counters of [mainLoop] wrap modulo 2^32,
      which is written out where they are incremented.
    - A pointer ([GLFWwindow*]) is an integer handle, [0] being [NULL].
    - A finite [double] is a rational number in [Q]: the arithmetic is exact,
      rounding (and the casts to [float]) is not modelled.  A division, the
      only operation of the program that can leave the finite numbers, yields
      a [quotient].
    - The matrices of glm are terms over the glm functions the program calls;
      glm itself is not interpreted.
    - Every call into OpenGL, GLFW and the C library that acts on the outside
      world is recorded in a trace, newest call first.  What the outside
      world answers (files, compiler and linker verdicts, uniform locations,
      the error flags of the GL) is given by a [Driver].  A call is
      recorded whether or not the entry point behind it has been loaded;
      where the program calls into the GL before [gladLoadGL] has succeeded,
      no statement is made about what follows that call.
    - The program is built with or without [NDEBUG]; the [Driver] tells
      which, and the macro [GL_ERROR_DBG] expands accordingly. *)

From Stdlib Require Import ZArith QArith Lia Lqa.
From stdpp Require Import base list strings.

Local Open Scope Z_scope.

(** ** Numbers *)

(** The result of dividing two finite doubles (IEEE 754, without rounding). *)
Inductive quotient : Type :=
| Fin (q : Q)
| PosInf
| NegInf
| NaN.

Definition ddiv (x y : Q) : quotient :=
  if Qeq_bool y 0 then
    if Qeq_bool x 0 then NaN
    else if Qle_bool 0 x then PosInf else NegInf
  else Fin (x / y).

(** [unsigned int] arithmetic. *)
Definition UINT_MODULUS : Z := 2 ^ 32.
Definition uint (z : Z) : Z := z mod UINT_MODULUS.

(** [glm::half_pi<double>()]: the double nearest to pi/2, 0x1.921fb54442d18p+0. *)
Definition half_pi : Q := 884279719003555 # 562949953421312.

(** ** glm *)

Record vec3 : Type := mk_vec3 { vx : Q; vy : Q; vz : Q }.

Inductive mat4 : Type :=
| mat4_id                                          (* glm::mat4() *)
| perspective (fovy : Q) (aspect : quotient) (zNear zFar : Q)
| translate (v : vec3)
| rotate (m : mat4) (angle : Q) (axis : vec3)
| mat4_mul (a b : mat4).

(** The sum of the angles of the rotations a matrix was built from. *)
Fixpoint rotation_angle (m : mat4) : Q :=
  match m with
  | rotate m' a _ => (rotation_angle m' + a)%Q
  | _ => 0%Q
  end.

(** ** GLFW constants (GLFW/glfw3.h, GLFW 3) *)

Definition GLFW_RELEASE : Z := 0.
Definition GLFW_PRESS : Z := 1.
Definition GLFW_KEY_ESCAPE : Z := 256.
Definition GLFW_KEY_LAST : Z := 348.

(** ['0'] and ['9']. *)
Definition CHAR_0 : Z := 48.
Definition CHAR_9 : Z := 57.

(** ** The outside world *)

Inductive ShaderType : Type := GL_VERTEX_SHADER | GL_FRAGMENT_SHADER.

Inductive LogArg : Type :=
| arg_int (z : Z)
| arg_str (s : string)
| arg_dbl (q : Q)
| arg_quot (d : quotient).

(** The calls the program makes, each with the arguments that matter.  In the
    format strings of [info] and [warn] the C escape of a double quote is
    written as a single quote. *)
Inductive Call : Type :=
| info (format : string) (args : list LogArg)
| warn (format : string) (args : list LogArg)
| fprintf_stderr (format : string) (args : list LogArg)
| printInfoLog (obj : Z) (is_program : bool)
| printGLInfo
| listGLExtensions
| glEnable_DEPTH_TEST
| glClearColor (r g b a : Q)
| glShaderSource (shader : Z) (source : string)
| glCompileShader (shader : Z)
| glDeleteShader (shader : Z)
| glAttachShader (program shader : Z)
| glBindAttribLocation (program index : Z) (name : string)
| glBindFragDataLocation (program color : Z) (name : string)
| glLinkProgram (program : Z)
| glDeleteProgram (program : Z)
| glUseProgram (program : Z)
| glUniformMatrix4fv (location : Z) (value : mat4)
| glUniform1f (location : Z) (value : Q)
| glBindVertexArray (vao : Z)
| glDeleteVertexArrays (vao : Z)
| glDeleteBuffers (vbo0 vbo1 : Z)
| glBindBuffer (target : string) (buffer : Z)
| glBufferData (target : string) (size : Z)
| glVertexAttribPointer (index size : Z) (type : string) (normalized : bool) (stride offset : Z)
| glEnableVertexAttribArray (index : Z)
| glViewport (x y w h : Z)
| glClear
| glDrawElements (count : Z)
| glfwWindowHints
| glfwSetCallbacks (win : Z)
| glfwMakeContextCurrent (win : Z)
| glfwSwapInterval (interval : Z)
| glfwSwapBuffers (win : Z)
| glfwSetWindowShouldClose (win value : Z)
| glfwSetWindowTitle (win : Z) (title : string) (avg_frametime avg_fps : quotient)
| glfwDestroyWindow (win : Z)
| glfwTerminate.

(** How the program was built and what the outside world answers.
    [drv_glGetError] gives the error flags that are set in the context
    after the calls made so far (newest first), in the order in which
    [glGetError] reports them. *)
Record Driver : Type := {
  drv_NDEBUG : bool;                         (* built with NDEBUG defined *)
  drv_glGetError : list Call -> list Z;
  drv_glfwInit : bool;
  drv_glfwCreateWindow : Z;                  (* the window, 0 for NULL *)
  drv_gladLoadGL : bool;
  drv_fopen : string -> option string;       (* the text of a file that opens *)
  drv_malloc : string -> bool;               (* room for the text of a file *)
  drv_compile : ShaderType -> string -> bool;  (* GL_COMPILE_STATUS *)
  drv_link : Z -> Z -> bool;                 (* GL_LINK_STATUS, by attached shaders *)
  drv_glGetUniformLocation : Z -> string -> Z
}.

(** The mutable part of the outside world: the calls made so far (newest
    first), the next unused object name, and the close flag of the window. *)
Record World : Type := {
  trace : list Call;
  next_name : Z;
  should_close : bool
}.

(** ** A state monad over the world *)

Definition M (A : Type) : Type := World -> A * World.

Definition ret {A : Type} (x : A) : M A := fun w => (x, w).

Definition bind {A B : Type} (m : M A) (k : A -> M B) : M B :=
  fun w => k (fst (m w)) (snd (m w)).

Notation "'do' x <- m ; k" := (bind m (fun x => k))
  (at level 10, x name, m at level 100, k at level 200).
Notation "m >> k" := (bind m (fun _ => k))
  (at level 100, k at level 200, right associativity).

Definition call (c : Call) : M unit := fun w =>
  (tt, {| trace := c :: trace w; next_name := next_name w; should_close := should_close w |}).

(** glCreateShader, glCreateProgram, glGenVertexArrays, glGenBuffers. *)
Definition fresh_name : M Z := fun w =>
  (next_name w,
   {| trace := trace w; next_name := next_name w + 1; should_close := should_close w |}).

Definition set_should_close (b : bool) : M unit := fun w =>
  (tt, {| trace := trace w; next_name := next_name w; should_close := b |}).

Definition when (b : bool) (m : M unit) : M unit := if b then m else ret tt.

(** The calls made between two worlds, oldest first. *)
Definition calls_between (w w' : World) (cs : list Call) : Prop :=
  trace w' = rev cs ++ trace w.

(** ** Cube.h *)

(** [vbo0] and [vbo1] are the two entries of the array [vbo]. *)
Record Cube : Type := {
  vbo0 : Z;
  vbo1 : Z;
  vao : Z;
  model : mat4
}.

(** Assignment to one member. *)
Definition set_vbo0 (v : Z) (c : Cube) : Cube :=
  {| vbo0 := v; vbo1 := vbo1 c; vao := vao c; model := model c |}.

Definition set_vbo1 (v : Z) (c : Cube) : Cube :=
  {| vbo0 := vbo0 c; vbo1 := v; vao := vao c; model := model c |}.

Definition set_vao (v : Z) (c : Cube) : Cube :=
  {| vbo0 := vbo0 c; vbo1 := vbo1 c; vao := v; model := model c |}.

Definition set_model (v : mat4) (c : Cube) : Cube :=
  {| vbo0 := vbo0 c; vbo1 := vbo1 c; vao := vao c; model := v |}.

(** ** BaseApplication.h: the application state *)

Record BaseApplication : Type := {
  win : Z;
  width : Z;
  height : Z;
  flags : Z;
  timeCur : Q;
  timeDelta : Q;
  avg_frametime : quotient;
  avg_fps : quotient;
  pressedKeys : list bool;
  releasedKeys : list bool;
  cube : Cube;
  program : Z;
  locProjection : Z;
  locModelView : Z;
  locTime : Z;
  locCameraPos : Z;
  projection : mat4;
  view : mat4
}.

Definition set_win (v : Z) (a : BaseApplication) : BaseApplication :=
  {| win := v; width := width a; height := height a; flags := flags a; timeCur :=
     timeCur a; timeDelta := timeDelta a; avg_frametime := avg_frametime a; avg_fps :=
     avg_fps a; pressedKeys := pressedKeys a; releasedKeys := releasedKeys a; cube :=
     cube a; program := program a; locProjection := locProjection a; locModelView :=
     locModelView a; locTime := locTime a; locCameraPos := locCameraPos a; projection :=
     projection a; view := view a |}.

Definition set_width (v : Z) (a : BaseApplication) : BaseApplication :=
  {| win := win a; width := v; height := height a; flags := flags a; timeCur := timeCur
     a; timeDelta := timeDelta a; avg_frametime := avg_frametime a; avg_fps := avg_fps
     a; pressedKeys := pressedKeys a; releasedKeys := releasedKeys a; cube := cube a;
     program := program a; locProjection := locProjection a; locModelView :=
     locModelView a; locTime := locTime a; locCameraPos := locCameraPos a; projection :=
     projection a; view := view a |}.

Definition set_height (v : Z) (a : BaseApplication) : BaseApplication :=
  {| win := win a; width := width a; height := v; flags := flags a; timeCur := timeCur
     a; timeDelta := timeDelta a; avg_frametime := avg_frametime a; avg_fps := avg_fps
     a; pressedKeys := pressedKeys a; releasedKeys := releasedKeys a; cube := cube a;
     program := program a; locProjection := locProjection a; locModelView :=
     locModelView a; locTime := locTime a; locCameraPos := locCameraPos a; projection :=
     projection a; view := view a |}.

Definition set_flags (v : Z) (a : BaseApplication) : BaseApplication :=
  {| win := win a; width := width a; height := height a; flags := v; timeCur := timeCur
     a; timeDelta := timeDelta a; avg_frametime := avg_frametime a; avg_fps := avg_fps
     a; pressedKeys := pressedKeys a; releasedKeys := releasedKeys a; cube := cube a;
     program := program a; locProjection := locProjection a; locModelView :=
     locModelView a; locTime := locTime a; locCameraPos := locCameraPos a; projection :=
     projection a; view := view a |}.

Definition set_timeCur (v : Q) (a : BaseApplication) : BaseApplication :=
  {| win := win a; width := width a; height := height a; flags := flags a; timeCur := v;
     timeDelta := timeDelta a; avg_frametime := avg_frametime a; avg_fps := avg_fps a;
     pressedKeys := pressedKeys a; releasedKeys := releasedKeys a; cube := cube a;
     program := program a; locProjection := locProjection a; locModelView :=
     locModelView a; locTime := locTime a; locCameraPos := locCameraPos a; projection :=
     projection a; view := view a |}.

Definition set_timeDelta (v : Q) (a : BaseApplication) : BaseApplication :=
  {| win := win a; width := width a; height := height a; flags := flags a; timeCur :=
     timeCur a; timeDelta := v; avg_frametime := avg_frametime a; avg_fps := avg_fps a;
     pressedKeys := pressedKeys a; releasedKeys := releasedKeys a; cube := cube a;
     program := program a; locProjection := locProjection a; locModelView :=
     locModelView a; locTime := locTime a; locCameraPos := locCameraPos a; projection :=
     projection a; view := view a |}.

Definition set_avg_frametime (v : quotient) (a : BaseApplication) : BaseApplication :=
  {| win := win a; width := width a; height := height a; flags := flags a; timeCur :=
     timeCur a; timeDelta := timeDelta a; avg_frametime := v; avg_fps := avg_fps a;
     pressedKeys := pressedKeys a; releasedKeys := releasedKeys a; cube := cube a;
     program := program a; locProjection := locProjection a; locModelView :=
     locModelView a; locTime := locTime a; locCameraPos := locCameraPos a; projection :=
     projection a; view := view a |}.

Definition set_avg_fps (v : quotient) (a : BaseApplication) : BaseApplication :=
  {| win := win a; width := width a; height := height a; flags := flags a; timeCur :=
     timeCur a; timeDelta := timeDelta a; avg_frametime := avg_frametime a; avg_fps :=
     v; pressedKeys := pressedKeys a; releasedKeys := releasedKeys a; cube := cube a;
     program := program a; locProjection := locProjection a; locModelView :=
     locModelView a; locTime := locTime a; locCameraPos := locCameraPos a; projection :=
     projection a; view := view a |}.

Definition set_pressedKeys (v : list bool) (a : BaseApplication) : BaseApplication :=
  {| win := win a; width := width a; height := height a; flags := flags a; timeCur :=
     timeCur a; timeDelta := timeDelta a; avg_frametime := avg_frametime a; avg_fps :=
     avg_fps a; pressedKeys := v; releasedKeys := releasedKeys a; cube := cube a;
     program := program a; locProjection := locProjection a; locModelView :=
     locModelView a; locTime := locTime a; locCameraPos := locCameraPos a; projection :=
     projection a; view := view a |}.

Definition set_releasedKeys (v : list bool) (a : BaseApplication) : BaseApplication :=
  {| win := win a; width := width a; height := height a; flags := flags a; timeCur :=
     timeCur a; timeDelta := timeDelta a; avg_frametime := avg_frametime a; avg_fps :=
     avg_fps a; pressedKeys := pressedKeys a; releasedKeys := v; cube := cube a; program
     := program a; locProjection := locProjection a; locModelView := locModelView a;
     locTime := locTime a; locCameraPos := locCameraPos a; projection := projection a;
     view := view a |}.

Definition set_cube (v : Cube) (a : BaseApplication) : BaseApplication :=
  {| win := win a; width := width a; height := height a; flags := flags a; timeCur :=
     timeCur a; timeDelta := timeDelta a; avg_frametime := avg_frametime a; avg_fps :=
     avg_fps a; pressedKeys := pressedKeys a; releasedKeys := releasedKeys a; cube := v;
     program := program a; locProjection := locProjection a; locModelView :=
     locModelView a; locTime := locTime a; locCameraPos := locCameraPos a; projection :=
     projection a; view := view a |}.

Definition set_program (v : Z) (a : BaseApplication) : BaseApplication :=
  {| win := win a; width := width a; height := height a; flags := flags a; timeCur :=
     timeCur a; timeDelta := timeDelta a; avg_frametime := avg_frametime a; avg_fps :=
     avg_fps a; pressedKeys := pressedKeys a; releasedKeys := releasedKeys a; cube :=
     cube a; program := v; locProjection := locProjection a; locModelView :=
     locModelView a; locTime := locTime a; locCameraPos := locCameraPos a; projection :=
     projection a; view := view a |}.

Definition set_locProjection (v : Z) (a : BaseApplication) : BaseApplication :=
  {| win := win a; width := width a; height := height a; flags := flags a; timeCur :=
     timeCur a; timeDelta := timeDelta a; avg_frametime := avg_frametime a; avg_fps :=
     avg_fps a; pressedKeys := pressedKeys a; releasedKeys := releasedKeys a; cube :=
     cube a; program := program a; locProjection := v; locModelView := locModelView a;
     locTime := locTime a; locCameraPos := locCameraPos a; projection := projection a;
     view := view a |}.

Definition set_locModelView (v : Z) (a : BaseApplication) : BaseApplication :=
  {| win := win a; width := width a; height := height a; flags := flags a; timeCur :=
     timeCur a; timeDelta := timeDelta a; avg_frametime := avg_frametime a; avg_fps :=
     avg_fps a; pressedKeys := pressedKeys a; releasedKeys := releasedKeys a; cube :=
     cube a; program := program a; locProjection := locProjection a; locModelView := v;
     locTime := locTime a; locCameraPos := locCameraPos a; projection := projection a;
     view := view a |}.

Definition set_locTime (v : Z) (a : BaseApplication) : BaseApplication :=
  {| win := win a; width := width a; height := height a; flags := flags a; timeCur :=
     timeCur a; timeDelta := timeDelta a; avg_frametime := avg_frametime a; avg_fps :=
     avg_fps a; pressedKeys := pressedKeys a; releasedKeys := releasedKeys a; cube :=
     cube a; program := program a; locProjection := locProjection a; locModelView :=
     locModelView a; locTime := v; locCameraPos := locCameraPos a; projection :=
     projection a; view := view a |}.

Definition set_locCameraPos (v : Z) (a : BaseApplication) : BaseApplication :=
  {| win := win a; width := width a; height := height a; flags := flags a; timeCur :=
     timeCur a; timeDelta := timeDelta a; avg_frametime := avg_frametime a; avg_fps :=
     avg_fps a; pressedKeys := pressedKeys a; releasedKeys := releasedKeys a; cube :=
     cube a; program := program a; locProjection := locProjection a; locModelView :=
     locModelView a; locTime := locTime a; locCameraPos := v; projection := projection
     a; view := view a |}.

Definition set_projection (v : mat4) (a : BaseApplication) : BaseApplication :=
  {| win := win a; width := width a; height := height a; flags := flags a; timeCur :=
     timeCur a; timeDelta := timeDelta a; avg_frametime := avg_frametime a; avg_fps :=
     avg_fps a; pressedKeys := pressedKeys a; releasedKeys := releasedKeys a; cube :=
     cube a; program := program a; locProjection := locProjection a; locModelView :=
     locModelView a; locTime := locTime a; locCameraPos := locCameraPos a; projection :=
     v; view := view a |}.

Definition set_view (v : mat4) (a : BaseApplication) : BaseApplication :=
  {| win := win a; width := width a; height := height a; flags := flags a; timeCur :=
     timeCur a; timeDelta := timeDelta a; avg_frametime := avg_frametime a; avg_fps :=
     avg_fps a; pressedKeys := pressedKeys a; releasedKeys := releasedKeys a; cube :=
     cube a; program := program a; locProjection := locProjection a; locModelView :=
     locModelView a; locTime := locTime a; locCameraPos := locCameraPos a; projection :=
     projection a; view := v |}.

(** The local variables of [mainLoop]. *)
Record LoopVars : Type := {
  frame : Z;
  frames_total : Z;
  start_time : Q;
  last_time : Q
}.

Definition set_frame (v : Z) (l : LoopVars) : LoopVars :=
  {| frame := v; frames_total := frames_total l; start_time := start_time l; last_time
     := last_time l |}.

Definition set_frames_total (v : Z) (l : LoopVars) : LoopVars :=
  {| frame := frame l; frames_total := v; start_time := start_time l; last_time :=
     last_time l |}.

Definition set_start_time (v : Q) (l : LoopVars) : LoopVars :=
  {| frame := frame l; frames_total := frames_total l; start_time := v; last_time :=
     last_time l |}.

Definition set_last_time (v : Q) (l : LoopVars) : LoopVars :=
  {| frame := frame l; frames_total := frames_total l; start_time := start_time l;
     last_time := v |}.

(** ** ShaderHelpers.h: [getGLError]

    The context holds the error flags that are set; [glGetError] answers
    one of them and clears it, and answers [GL_NO_ERROR] when none is set.
    What the function prints to stderr is collected in a list. *)

Definition GL_NO_ERROR : Z := 0.

Definition glGetError (pending : list Z) : Z * list Z :=
  match pending with
  | [] => (GL_NO_ERROR, [])
  | e :: rest => (e, rest)
  end.

Inductive ErrorOutput : Type :=
| print_file (file : string)               (* fprintf(stderr, "%s:", file) *)
| print_line (line : Z)                    (* fprintf(stderr, "%d:", line) *)
| warn_error (err : Z) (action : string).  (* warn("GL error 0x%x at %s", err, action) *)

(** The body of the do-while loop, from the value of [err] so far.  The
    result is the final [err], the output, and the flags left. *)
Fixpoint getGLError_loop (action : string) (ignore : bool) (file : option string)
    (line : Z) (err : Z) (pending : list Z) : Z * list ErrorOutput * list Z :=
  match pending with
  | [] => (err, [], [])
  | e :: rest =>
      if e =? GL_NO_ERROR then (err, [], rest)
      else if ignore then getGLError_loop action ignore file line err rest
      else
        let out := match file with Some f => [print_file f] | None => [] end
                   ++ (if line =? 0 then [] else [print_line line])
                   ++ [warn_error e action] in
        let r := getGLError_loop action ignore file line e rest in
        (fst (fst r), out ++ snd (fst r), snd r)
  end.

Definition getGLError (action : string) (ignore : bool) (file : option string)
    (line : Z) (pending : list Z) : Z * list ErrorOutput * list Z :=
  getGLError_loop action ignore file line GL_NO_ERROR pending.

Definition is_warn_error (o : ErrorOutput) : bool :=
  match o with warn_error _ _ => true | _ => false end.

(** ** ShaderHelpers.h *)

Section Program.

Variable drv : Driver.

(** What [getGLError] prints, as calls. *)
Definition report (o : ErrorOutput) : Call :=
  match o with
  | print_file f => fprintf_stderr "%s:" [arg_str f]
  | print_line l => fprintf_stderr "%d:" [arg_int l]
  | warn_error e a => warn "GL error 0x%x at %s" [arg_int e; arg_str a]
  end.

Fixpoint calls (cs : list Call) : M unit :=
  match cs with
  | [] => ret tt
  | c :: cs' => call c >> calls cs'
  end.

(** The macro [GL_ERROR_DBG(action)] at line [line] of [file]: nothing
    with [NDEBUG], and [getGLError(action, false, __FILE__, __LINE__)]
    without, its result dropped.  [__FILE__] is taken to be the name of
    the file as the repository has it. *)
Definition GL_ERROR_DBG (action file : string) (line : Z) : M unit :=
  if drv_NDEBUG drv then ret tt
  else fun w =>
    let r := getGLError action false (Some file) line (drv_glGetError drv (trace w)) in
    calls (map report (snd (fst r))) w.

Definition shaderCreateAndCompile (type : ShaderType) (source : string) : M Z :=
  do shader <- fresh_name ;
  call (info "created shader object %u" [arg_int shader]) >>
  call (glShaderSource shader source) >>
  call (info "compiling shader object %u" [arg_int shader]) >>
  call (glCompileShader shader) >>
  if drv_compile drv type source then ret shader
  else
    call (warn "Failed to compile shader" []) >>
    call (printInfoLog shader false) >>
    call (glDeleteShader shader) >>
    ret 0.

Definition shaderCreateFromFileAndCompile (type : ShaderType) (filename : string) : M Z :=
  call (info "loading shader file '%s'" [arg_str filename]) >>
  match drv_fopen drv filename with
  | None =>
      call (warn "Failed to open shader file '%s'" [arg_str filename]) >>
      ret 0
  | Some source =>
      if drv_malloc drv filename then shaderCreateAndCompile type source
      else
        call (warn "Failed to allocate memory for shader file '%s'" [arg_str filename]) >>
        ret 0
  end.

Definition programCreate (vertex_shader fragment_shader : Z) : M Z :=
  do program <- fresh_name ;
  call (info "created program %u" [arg_int program]) >>
  when (negb (vertex_shader =? 0)) (call (glAttachShader program vertex_shader)) >>
  when (negb (fragment_shader =? 0)) (call (glAttachShader program fragment_shader)) >>
  call (glBindAttribLocation program 0 "pos") >>
  call (glBindAttribLocation program 1 "nrm") >>
  call (glBindAttribLocation program 2 "clr") >>
  call (glBindAttribLocation program 3 "tex") >>
  call (glBindFragDataLocation program 0 "color") >>
  call (info "linking program %u" [arg_int program]) >>
  call (glLinkProgram program) >>
  if drv_link drv vertex_shader fragment_shader then ret program
  else
    call (warn "Failed to link program!" []) >>
    call (printInfoLog program true) >>
    call (glDeleteProgram program) >>
    ret 0.

Definition programCreateFromFiles (vs fs : string) : M Z :=
  do id_vs <- shaderCreateFromFileAndCompile GL_VERTEX_SHADER vs ;
  do id_fs <- shaderCreateFromFileAndCompile GL_FRAGMENT_SHADER fs ;
  do program <- programCreate id_vs id_fs ;
  call (info "destroying shader object %u" [arg_int id_vs]) >>
  call (glDeleteShader id_vs) >>
  call (info "destroying shader object %u" [arg_int id_fs]) >>
  call (glDeleteShader id_fs) >>
  ret program.

Definition initGLState : M unit :=
  call printGLInfo >>
  call listGLExtensions >>
  call glEnable_DEPTH_TEST >>
  call (glClearColor (3 # 10) (3 # 10) (3 # 10) 1).

(** ** Cube.h: the methods *)

Definition VERTEX_SIZE : Z := 16.          (* sizeof(Vertex): 3 floats, 4 bytes *)
Definition GEOMETRY_SIZE : Z := 24 * VERTEX_SIZE.   (* sizeof(basicCubeGeometry) *)
Definition CONNECTIVITY_SIZE : Z := 36 * 2.         (* sizeof(basicCubeConnectivity) *)

(** [destroy] unbinds the vertex array before it looks at the handles. *)
Definition Cube_destroy (c : Cube) : M Cube :=
  call (glBindVertexArray 0) >>
  do c <- (if negb (vao c =? 0) then
             call (info "Cube: deleting VAO %u" [arg_int (vao c)]) >>
             call (glDeleteVertexArrays (vao c)) >>
             ret (set_vao 0 c)
           else ret c) ;
  if negb (vbo0 c =? 0) || negb (vbo1 c =? 0) then
    call (info "Cube: deleting VBOs %u %u" [arg_int (vbo0 c); arg_int (vbo1 c)]) >>
    call (glDeleteBuffers (vbo0 c) (vbo1 c)) >>
    ret (set_vbo1 0 (set_vbo0 0 c))
  else ret c.

Definition Cube_initBasic (c : Cube) : M Cube :=
  do a <- fresh_name ;
  let c := set_vao a c in
  call (glBindVertexArray (vao c)) >>
  call (info "Cube: created VAO %u" [arg_int (vao c)]) >>
  do b0 <- fresh_name ;
  do b1 <- fresh_name ;
  let c := set_vbo1 b1 (set_vbo0 b0 c) in
  call (glBindBuffer "GL_ARRAY_BUFFER" (vbo0 c)) >>
  call (glBufferData "GL_ARRAY_BUFFER" GEOMETRY_SIZE) >>
  call (info "Cube: created VBO %u for %u bytes of vertex data"
             [arg_int (vbo0 c); arg_int GEOMETRY_SIZE]) >>
  call (glBindBuffer "GL_ELEMENT_ARRAY_BUFFER" (vbo1 c)) >>
  call (glBufferData "GL_ELEMENT_ARRAY_BUFFER" CONNECTIVITY_SIZE) >>
  call (info "Cube: created VBO %u for %u bytes of element data"
             [arg_int (vbo1 c); arg_int CONNECTIVITY_SIZE]) >>
  call (glVertexAttribPointer 0 3 "GL_FLOAT" false VERTEX_SIZE 0) >>
  call (glVertexAttribPointer 2 4 "GL_UNSIGNED_BYTE" true VERTEX_SIZE 12) >>
  call (glEnableVertexAttribArray 0) >>
  call (glEnableVertexAttribArray 2) >>
  call (glBindVertexArray 0) >>
  call (glBindBuffer "GL_ARRAY_BUFFER" 0) >>
  call (glBindBuffer "GL_ELEMENT_ARRAY_BUFFER" 0) >>
  let c := set_model mat4_id c in
  GL_ERROR_DBG "cube initialization" "Cube.h" 106 >>
  ret c.

(** ** BaseApplication.h: the methods *)

(** Destroy all GL objects related to the shaders. *)
Definition destroyShaders (app : BaseApplication) : M BaseApplication :=
  if negb (program app =? 0) then
    call (info "deleting program %u" [arg_int (program app)]) >>
    call (glDeleteProgram (program app)) >>
    ret (set_program 0 app)
  else ret app.

Definition initShaders (vs fs : string) (app : BaseApplication) : M (bool * BaseApplication) :=
  do app <- destroyShaders app ;
  do p <- programCreateFromFiles vs fs ;
  let app := set_program p app in
  if program app =? 0 then ret (false, app)
  else
    let app := set_locProjection (drv_glGetUniformLocation drv (program app) "projection") app in
    let app := set_locModelView (drv_glGetUniformLocation drv (program app) "modelView") app in
    let app := set_locTime (drv_glGetUniformLocation drv (program app) "time") app in
    let app := set_locCameraPos (drv_glGetUniformLocation drv (program app) "cameraPosition") app in
    call (info "program %u: location for 'projection' uniform: %d"
               [arg_int (program app); arg_int (locProjection app)]) >>
    call (info "program %u: location for 'modelView' uniform: %d"
               [arg_int (program app); arg_int (locModelView app)]) >>
    call (info "program %u: location for 'time' uniform: %d"
               [arg_int (program app); arg_int (locTime app)]) >>
    call (info "program %u: location for 'locCameraPos' uniform: %d"
               [arg_int (program app); arg_int (locCameraPos app)]) >>
    ret (true, app).

(** The loop of [initBaseApp] over the key codes:
    [pressedKeys[i] = releasedKeys[i] = false]. *)
Definition clear_key (app : BaseApplication) (i : nat) : BaseApplication :=
  let app := set_releasedKeys (<[i := false]> (releasedKeys app)) app in
  set_pressedKeys (<[i := false]> (pressedKeys app)) app.

Definition clear_keys (app : BaseApplication) : BaseApplication :=
  foldl clear_key app (seq 0 (Z.to_nat (GLFW_KEY_LAST + 1))).

(** [now] is what [glfwGetTime] answers at the end of the initialisation;
    the two callbacks are those of HelloCube.cpp. *)
Definition initBaseApp (w h : Z) (title : string) (now : Q) (app : BaseApplication)
  : M (bool * BaseApplication) :=
  let app := set_win 0 app in
  let app := set_width w app in
  let app := set_height h app in
  let app := set_flags 1 app in
  let app := set_avg_frametime (Fin (-1)) app in
  let app := set_avg_fps (Fin (-1)) app in
  let app := clear_keys app in
  let app := set_cube (set_vao 0 (set_vbo1 0 (set_vbo0 0 (cube app)))) app in
  let app := set_program 0 app in
  call (info "initializing GLFW" []) >>
  if negb (drv_glfwInit drv) then
    call (warn "Failed to initialze GLFW" []) >>
    ret (false, app)
  else
    call glfwWindowHints >>
    call (info "creating window and OpenGL context" []) >>
    let app := set_win (drv_glfwCreateWindow drv) app in
    if win app =? 0 then
      call (warn "failed to get window with OpenGL 3.2 core context" []) >>
      ret (false, app)
    else
      call (glfwSetCallbacks (win app)) >>
      call (glfwMakeContextCurrent (win app)) >>
      call (glfwSwapInterval 1) >>
      call (info "initializing glad" []) >>
      if negb (drv_gladLoadGL drv) then
        call (warn "failed to intialize OpenGL functions via glad" []) >>
        ret (false, app)
      else
        initGLState >>
        do c <- Cube_initBasic (cube app) ;
        let app := set_cube c app in
        let app := set_timeCur now app in
        ret (true, app).

(** Clean up: destroy everything the cube app still holds. *)
Definition destroy (app : BaseApplication) : M BaseApplication :=
  if negb (flags app =? 0) then
    do c <- Cube_destroy (cube app) ;
    let app := set_cube c app in
    do app <- destroyShaders app ;
    when (negb (win app =? 0)) (call (glfwDestroyWindow (win app))) >>
    call glfwTerminate >>
    ret app
  else ret app.

(** ** HelloCube.cpp *)

Definition APP_TITLE : string := "Hello, cube!".

Definition callback_Resize (w h : Z) (app : BaseApplication) : M BaseApplication :=
  call (info "new framebuffer size: %dx%d pixels" [arg_int w; arg_int h]) >>
  ret (set_height h (set_width w app)).

(** The shaders loaded on the number keys. *)
Definition shaders : list (string * string) :=
  [ (* 0 *) ("shaders/minimal.vs.glsl", "shaders/minimal.fs.glsl");
    (* 1 *) ("shaders/color.vs.glsl", "shaders/color.fs.glsl");
    (* 2 *) ("shaders/cut.vs.glsl", "shaders/cut.fs.glsl");
    (* 3 *) ("shaders/wobble.vs.glsl", "shaders/color.fs.glsl");
    (* 4 *) ("shaders/experimental.vs.glsl", "shaders/experimental.fs.glsl");
    (* 5 *) ("shaders/yourshader.vs.glsl", "shaders/yourshader.fs.glsl");
    (* 6 *) ("shaders/yourshader.vs.glsl", "shaders/yourshader.fs.glsl");
    (* 7 *) ("shaders/yourshader.vs.glsl", "shaders/yourshader.fs.glsl");
    (* 8 *) ("shaders/yourshader.vs.glsl", "shaders/yourshader.fs.glsl");
    (* 9 *) ("shaders/yourshader.vs.glsl", "shaders/yourshader.fs.glsl") ].

(** [app->pressedKeys[key]], for a key code within the array. *)
Definition key_down (app : BaseApplication) (key : Z) : bool :=
  default false (pressedKeys app !! Z.to_nat key).

Definition set_key (key : Z) (b : bool) (app : BaseApplication) : BaseApplication :=
  set_pressedKeys (<[Z.to_nat key := b]> (pressedKeys app)) app.

(** The block "handle certain keys" of [callback_Keyboard]. *)
Definition handle_key (key : Z) (app : BaseApplication) : M BaseApplication :=
  if (CHAR_0 <=? key) && (key <=? CHAR_9) then
    let files := nth (Z.to_nat (key - CHAR_0)) shaders ("", "") in
    do r <- initShaders (fst files) (snd files) app ;
    ret (snd r)
  else if key =? GLFW_KEY_ESCAPE then
    call (glfwSetWindowShouldClose (win app) 1) >>
    set_should_close true >>
    ret app
  else ret app.

Definition callback_Keyboard (key scancode action mods : Z) (app : BaseApplication)
  : M BaseApplication :=
  if (key <? 0) || (key >? GLFW_KEY_LAST) then
    call (warn "invalid key code %d?!" [arg_int key]) >>
    ret app
  else if action =? GLFW_RELEASE then
    ret (set_key key false app)
  else
    do app <- (if negb (key_down app key) then handle_key key app else ret app) ;
    ret (set_key key true app).

(** *** The drawing function *)

(** [glm::half_pi<float>()]: the float nearest to pi/2, 0x1.921fb6p+0. *)
Definition half_pi_float : Q := 13176795 # 8388608.

(** The axis the cube rotates about. *)
Definition cube_axis : vec3 := mk_vec3 (8 # 10) (6 # 10) (1 # 10).

Definition displayFunc (app : BaseApplication) : M BaseApplication :=
  let app := set_projection
               (perspective half_pi_float
                            (ddiv (inject_Z (width app)) (inject_Z (height app)))
                            (1 # 10) 10) app in
  let app := set_view (translate (mk_vec3 0 0 (-4))) app in
  let app := set_cube (set_model (rotate (model (cube app))
                                         (half_pi * timeDelta app) cube_axis)
                                 (cube app)) app in
  let modelView := mat4_mul (view app) (model (cube app)) in
  call (glViewport 0 0 (width app) (height app)) >>
  call glClear >>
  call (glUseProgram (program app)) >>
  call (glUniformMatrix4fv (locProjection app) (projection app)) >>
  call (glUniformMatrix4fv (locModelView app) modelView) >>
  call (glUniform1f (locTime app) (timeCur app)) >>
  call (glBindVertexArray (vao (cube app))) >>
  call (glDrawElements (6 * 6)) >>
  call (glBindVertexArray 0) >>
  call (glUseProgram 0) >>
  call (glfwSwapBuffers (win app)) >>
  GL_ERROR_DBG "display function" "HelloCube.cpp" 127 >>
  ret app.

(** *** The main loop *)

(** What GLFW hands to the program during one [glfwPollEvents]. *)
Inductive Event : Type :=
| key_event (key scancode action mods : Z)
| resize_event (w h : Z)
| close_event.                       (* the user asks the window to close *)

(** One iteration of the loop as the outside world sees it: the answer of
    [glfwGetTime] and the events pending at [glfwPollEvents]. *)
Record Tick : Type := { now : Q; events : list Event }.

Definition dispatch (app : BaseApplication) (e : Event) : M BaseApplication :=
  match e with
  | key_event key scancode action mods => callback_Keyboard key scancode action mods app
  | resize_event w h => callback_Resize w h app
  | close_event => set_should_close true >> ret app
  end.

Fixpoint glfwPollEvents (evs : list Event) (app : BaseApplication) : M BaseApplication :=
  match evs with
  | [] => ret app
  | e :: evs' => do app <- dispatch app e ; glfwPollEvents evs' app
  end.

(** "update FPS estimate at most once every second": the first half of the
    loop body, up to the call of [displayFunc]. *)
Definition update_fps_estimate (lv : LoopVars) (app : BaseApplication)
  : M (LoopVars * BaseApplication) :=
  let elapsed := (timeCur app - last_time lv)%Q in
  if Qle_bool 1 elapsed then
    let app := set_avg_frametime (ddiv (1000 * elapsed) (inject_Z (frame lv))) app in
    let app := set_avg_fps (ddiv (inject_Z (frame lv)) elapsed) app in
    let lv := set_last_time (timeCur app) lv in
    let lv := set_frames_total (uint (frames_total lv + frame lv)) lv in
    let lv := set_frame 0 lv in
    call (glfwSetWindowTitle (win app) "Hello, cube!   /// AVG: %4.2fms/frame (%.1ffps)"
                             (avg_frametime app) (avg_fps app)) >>
    call (info "frame time: %4.2fms/frame (%.1ffps)"
               [arg_quot (avg_frametime app); arg_quot (avg_fps app)]) >>
    ret (lv, app)
  else ret (lv, app).

Definition loop_body (tk : Tick) (lv : LoopVars) (app : BaseApplication)
  : M (LoopVars * BaseApplication) :=
  let app := set_timeDelta (now tk - timeCur app)%Q app in
  let app := set_timeCur (now tk) app in
  do r <- update_fps_estimate lv app ;
  do app <- displayFunc (snd r) ;
  let lv := set_frame (uint (frame (fst r) + 1)) (fst r) in
  do app <- glfwPollEvents (events tk) app ;
  ret (lv, app).

(** [while (!glfwWindowShouldClose(app->win))], run against a finite script
    of ticks.  The boolean tells whether the loop was left; it is [false]
    when the script ends with the window still open. *)
Fixpoint main_while (ticks : list Tick) (lv : LoopVars) (app : BaseApplication)
  : M (bool * (LoopVars * BaseApplication)) :=
  fun w =>
    if should_close w then (true, (lv, app), w)
    else
      match ticks with
      | [] => (false, (lv, app), w)
      | tk :: ticks' =>
          (do r <- loop_body tk lv app ; main_while ticks' (fst r) (snd r)) w
      end.

(** [start] is what [glfwGetTime] answers on entry. *)
Definition mainLoop (start : Q) (ticks : list Tick) (app : BaseApplication)
  : M (bool * (LoopVars * BaseApplication)) :=
  let lv := {| frame := 0; frames_total := 0; start_time := start; last_time := start |} in
  call (info "entering main loop" []) >>
  do r <- main_while ticks lv app ;
  if fst r then
    let lv := fst (snd r) in
    let app := snd (snd r) in
    let lv := set_frames_total (uint (frames_total lv + frame lv)) lv in
    call (info "left main loop\n%u frames rendered in %.1fs seconds == %.1ffps"
               [arg_int (frames_total lv);
                arg_dbl (timeCur app - start_time lv);
                arg_quot (ddiv (inject_Z (frames_total lv)) (timeCur app - start_time lv))]) >>
    ret (true, (lv, app))
  else ret r.

(** *** The program entry point

    [app] holds whatever the uninitialised structure holds; [t_init] and
    [start] are the clock at the end of [initBaseApp] and on entry to
    [mainLoop]. *)
Definition main (t_init start : Q) (ticks : list Tick) (app : BaseApplication)
  : M BaseApplication :=
  do r <- initBaseApp 800 600 APP_TITLE t_init app ;
  do app <- (if fst r then
               do r2 <- initShaders "shaders/raymarch.vs.glsl" "shaders/raymarch.fs.glsl"
                                    (snd r) ;
               if negb (fst r2) then
                 call (warn "something wrong with our shaders..." []) >>
                 ret (snd r2)
               else
                 do r3 <- mainLoop start ticks (snd r2) ;
                 ret (snd (snd r3))
             else ret (snd r)) ;
  destroy app.

End Program.

(** * Observations on traces and the states the program can be in *)

(** What [GL_ERROR_DBG] prints after the calls [tr]. *)
Definition debug_output (drv : Driver) (action file : string) (line : Z)
    (tr : list Call) : list Call :=
  if drv_NDEBUG drv then []
  else map report
         (snd (fst (getGLError action false (Some file) line (drv_glGetError drv tr)))).

(** A line on stderr. *)
Definition is_report (c : Call) : bool :=
  match c with warn _ _ | fprintf_stderr _ _ => true | _ => false end.

Definition is_draw (c : Call) : bool :=
  match c with glDrawElements _ => true | _ => false end.

(** The number of draw calls made so far. *)
Definition draw_count (w : World) : Z :=
  Z.of_nat (length (List.filter is_draw (trace w))).

Definition is_uniform_write (c : Call) : bool :=
  match c with
  | glUniformMatrix4fv _ _ | glUniform1f _ _ => true
  | _ => false
  end.

(** A step of the outside world that draws nothing and does not take back a
    request to close the window. *)
Definition stable (w w' : World) : Prop :=
  draw_count w' = draw_count w /\ (should_close w = true -> should_close w' = true).

Definition quiet {A : Type} (m : M A) : Prop := forall w, stable w (snd (m w)).

(** What the events of a tick leave alone: everything but the size of the
    viewport, the keys that are down and the shader program. *)
Definition scene_kept (a b : BaseApplication) : Prop :=
  win b = win a /\ flags b = flags a /\ timeCur b = timeCur a /\
  timeDelta b = timeDelta a /\ avg_frametime b = avg_frametime a /\
  avg_fps b = avg_fps a /\ releasedKeys b = releasedKeys a /\ cube b = cube a /\
  projection b = projection a /\ view b = view a.



(** The states of the application structure during a run of [main]: what
    [initBaseApp] leaves of an uninitialised structure (whose two key arrays
    have their declared length), and what every later operation makes of it. *)
Inductive reachable (drv : Driver) : BaseApplication -> Prop :=
| reach_initBaseApp w h title t app0 wd :
    length (pressedKeys app0) = Z.to_nat (GLFW_KEY_LAST + 1) ->
    length (releasedKeys app0) = Z.to_nat (GLFW_KEY_LAST + 1) ->
    reachable drv (snd (fst (initBaseApp drv w h title t app0 wd)))
| reach_initShaders vs fs app wd :
    reachable drv app ->
    reachable drv (snd (fst (initShaders drv vs fs app wd)))
| reach_callback_Keyboard key scancode action mods app wd :
    reachable drv app ->
    reachable drv (fst (callback_Keyboard drv key scancode action mods app wd))
| reach_callback_Resize w h app wd :
    reachable drv app ->
    reachable drv (fst (callback_Resize w h app wd))
| reach_loop_body tk lv app wd :
    reachable drv app ->
    reachable drv (snd (fst (loop_body drv tk lv app wd)))
| reach_destroy app wd :
    reachable drv app ->
    reachable drv (fst (destroy app wd)).

(** Frames at a fixed rate: tick [i] comes [delta + i / rate] after [start],
    and no event is pending. *)
Definition steady_tick (start delta rate : Q) (i : nat) : Tick :=
  {| now := start + delta + inject_Z (Z.of_nat i) / rate; events := [] |}.

Definition steady_ticks (start delta rate : Q) (n : nat) : list Tick :=
  map (steady_tick start delta rate) (seq 0 n).

(** ** A concrete outside world, for the examples

    The build has [NDEBUG].  Every file opens except the placeholder pair
    "yourshader"; every shader compiles; a program links when both shaders
    are attached; [cameraPosition] is not an active uniform. *)
Definition demo_driver : Driver := {|
  drv_NDEBUG := true;
  drv_glGetError := fun _ => [];
  drv_glfwInit := true;
  drv_glfwCreateWindow := 1000;
  drv_gladLoadGL := true;
  drv_fopen := fun f =>
    if String.eqb f "shaders/yourshader.vs.glsl" || String.eqb f "shaders/yourshader.fs.glsl"
    then None else Some f;
  drv_malloc := fun _ => true;
  drv_compile := fun _ _ => true;
  drv_link := fun v f => negb (v =? 0) && negb (f =? 0);
  drv_glGetUniformLocation := fun _ name =>
    if String.eqb name "cameraPosition" then -1 else Z.of_nat (String.length name)
|}.

(** The same outside world for a build without [NDEBUG], with a GL that
    flags [GL_INVALID_OPERATION] when a frame has written its uniforms
    while no program was in use. *)
Definition GL_INVALID_OPERATION : Z := 1282.   (* 0x0502 *)

Definition unbound_frame (tr : list Call) : bool :=
  match tr with
  | glfwSwapBuffers _ :: _ :: _ :: _ :: _ :: _ :: _ :: _ :: glUseProgram p :: _ => p =? 0
  | _ => false
  end.

Definition debug_driver : Driver := {|
  drv_NDEBUG := false;
  drv_glGetError := fun tr => if unbound_frame tr then [GL_INVALID_OPERATION] else [];
  drv_glfwInit := drv_glfwInit demo_driver;
  drv_glfwCreateWindow := drv_glfwCreateWindow demo_driver;
  drv_gladLoadGL := drv_gladLoadGL demo_driver;
  drv_fopen := drv_fopen demo_driver;
  drv_malloc := drv_malloc demo_driver;
  drv_compile := drv_compile demo_driver;
  drv_link := drv_link demo_driver;
  drv_glGetUniformLocation := drv_glGetUniformLocation demo_driver
|}.

Definition demo_world : World := {| trace := []; next_name := 1; should_close := false |}.

(** An uninitialised application structure. *)
Definition demo_garbage : BaseApplication := {|
  win := 77; width := 1; height := 2; flags := 0;
  timeCur := 0; timeDelta := 0; avg_frametime := NaN; avg_fps := NaN;
  pressedKeys := replicate 349 true; releasedKeys := replicate 349 true;
  cube := {| vbo0 := 5; vbo1 := 6; vao := 7; model := mat4_id |};
  program := 9; locProjection := 0; locModelView := 0; locTime := 0; locCameraPos := 0;
  projection := mat4_id; view := mat4_id
|}.

(** The structure and the world as [main] has them on entry to [mainLoop]. *)
Definition demo_start : (bool * BaseApplication) * World :=
  (do r <- initBaseApp demo_driver 800 600 APP_TITLE 0 demo_garbage ;
   initShaders demo_driver "shaders/raymarch.vs.glsl" "shaders/raymarch.fs.glsl" (snd r))
    demo_world.

Definition demo_app : BaseApplication := snd (fst demo_start).
Definition demo_running : World := snd demo_start.

(** A tick without events, and a tick on which the user closes the window. *)
Definition idle_tick (t : Q) : Tick := {| now := t; events := [] |}.
Definition closing_tick (t : Q) : Tick := {| now := t; events := [close_event] |}.

(** * More of the program, and more observations *)

(** ** Cube.h: the geometry *)

(** [GLfloat pos[3]] and [GLubyte clr[4]]. *)
Record Vertex : Type := {
  pos : Q * Q * Q;
  clr : Z * Z * Z * Z
}.

Definition vertex (x y z : Q) (r g b a : Z) : Vertex :=
  {| pos := (x, y, z); clr := (r, g, b, a) |}.

Definition basicCubeGeometry : list Vertex :=
  [ (* front face *)
    vertex (-1) (-1) 1 255 0 0 255;
    vertex 1 (-1) 1 192 0 0 255;
    vertex (-1) 1 1 192 0 0 255;
    vertex 1 1 1 128 0 0 255;
    (* back face *)
    vertex 1 (-1) (-1) 0 255 255 255;
    vertex (-1) (-1) (-1) 0 192 192 255;
    vertex 1 1 (-1) 0 192 192 255;
    vertex (-1) 1 (-1) 0 128 128 255;
    (* left face *)
    vertex (-1) (-1) (-1) 0 255 0 255;
    vertex (-1) (-1) 1 0 192 0 255;
    vertex (-1) 1 (-1) 0 192 0 255;
    vertex (-1) 1 1 0 128 0 255;
    (* right face *)
    vertex 1 (-1) 1 255 0 255 255;
    vertex 1 (-1) (-1) 192 0 192 255;
    vertex 1 1 1 192 0 192 255;
    vertex 1 1 (-1) 128 0 128 255;
    (* top face *)
    vertex (-1) 1 1 0 0 255 255;
    vertex 1 1 1 0 0 192 255;
    vertex (-1) 1 (-1) 0 0 192 255;
    vertex 1 1 (-1) 0 0 128 255;
    (* bottom face *)
    vertex 1 (-1) 1 255 255 0 255;
    vertex (-1) (-1) 1 192 192 0 255;
    vertex 1 (-1) (-1) 192 192 0 255;
    vertex (-1) (-1) (-1) 128 128 0 255 ].

(** Two triangles sharing an edge for each face. *)
Definition basicCubeConnectivity : list Z :=
  [ 0; 1; 2;  2; 1; 3;          (* front *)
    4; 5; 6;  6; 5; 7;          (* back *)
    8; 9; 10;  10; 9; 11;       (* left *)
    12; 13; 14;  14; 13; 15;    (* right *)
    16; 17; 18;  18; 17; 19;    (* top *)
    20; 21; 22;  22; 21; 23 ].  (* bottom *)

(** [sizeof(GLushort)]. *)
Definition INDEX_SIZE : Z := 2.

(** ** Objects of the GL that are alive

    [shaderCreateAndCompile] compiles every shader object it creates, and
    [programCreate] links every program object it creates: an object is
    counted from that call on, until the call that deletes it. *)

Definition count (f : Call -> bool) (w : World) : Z :=
  Z.of_nat (length (List.filter f (trace w))).

Definition is_compile (s : Z) (c : Call) : bool :=
  match c with glCompileShader x => x =? s | _ => false end.

Definition is_delete_shader (s : Z) (c : Call) : bool :=
  match c with glDeleteShader x => x =? s | _ => false end.

Definition is_link (p : Z) (c : Call) : bool :=
  match c with glLinkProgram x => x =? p | _ => false end.

Definition is_delete_program (p : Z) (c : Call) : bool :=
  match c with glDeleteProgram x => x =? p | _ => false end.

Definition shaders_alive (s : Z) (w : World) : Z :=
  count (is_compile s) w - count (is_delete_shader s) w.

Definition programs_alive (p : Z) (w : World) : Z :=
  count (is_link p) w - count (is_delete_program p) w.

(** A call that creates or deletes no shader and no program. *)
Definition is_object_call (c : Call) : bool :=
  match c with
  | glCompileShader _ | glDeleteShader _ | glLinkProgram _ | glDeleteProgram _ => true
  | _ => false
  end.

(** A step of the outside world that creates and deletes no such object. *)
Definition same_objects (w w' : World) : Prop :=
  forall x,
    count (is_compile x) w' = count (is_compile x) w
    /\ count (is_delete_shader x) w' = count (is_delete_shader x) w
    /\ count (is_link x) w' = count (is_link x) w
    /\ count (is_delete_program x) w' = count (is_delete_program x) w.

Definition inert {A : Type} (m : M A) : Prop := forall w, same_objects w (snd (m w)).

(** Counted from the world [w0], the program the application holds is the
    one program alive, and no shader is alive. *)
Definition owns_program (app : BaseApplication) (w0 w : World) : Prop :=
  forall x, x <> 0 ->
    shaders_alive x w = shaders_alive x w0
    /\ programs_alive x w = programs_alive x w0 + (if x =? program app then 1 else 0).

(** A call through one of the entry points of the GL, which [gladLoadGL]
    loads; the functions of GLFW and of the C library are linked. *)
Definition is_gl_call (c : Call) : bool :=
  match c with
  | info _ _ | warn _ _ | fprintf_stderr _ _
  | glfwWindowHints | glfwSetCallbacks _ | glfwMakeContextCurrent _
  | glfwSwapInterval _ | glfwSwapBuffers _ | glfwSetWindowShouldClose _ _
  | glfwSetWindowTitle _ _ _ _ | glfwDestroyWindow _ | glfwTerminate => false
  | _ => true
  end.

(** The key arrays have their declared length. *)
Definition keys_sized (app : BaseApplication) : Prop :=
  length (pressedKeys app) = Z.to_nat (GLFW_KEY_LAST + 1)
  /\ length (releasedKeys app) = Z.to_nat (GLFW_KEY_LAST + 1).

(** The action of the last event for [key] among [evs], if there is one. *)
Fixpoint last_action (key : Z) (evs : list Event) : option Z :=
  match evs with
  | [] => None
  | e :: evs' =>
      match last_action key evs' with
      | Some a => Some a
      | None =>
          match e with
          | key_event k _ a _ => if k =? key then Some a else None
          | _ => None
          end
      end
  end.

(** * Basic facts *)

(** Search a trace for a call. *)
Ltac find_call := repeat (first [ left; reflexivity | right ]).

(** ** The error check of debug builds *)

Lemma calls_world (cs : list Call) (w : World) :
  calls cs w
  = (tt, {| trace := rev cs ++ trace w; next_name := next_name w;
            should_close := should_close w |}).
Proof.
  revert w. induction cs as [| c cs IH]; intros w.
  - destruct w; reflexivity.
  - cbn [calls]. unfold bind. rewrite IH. cbn [call fst snd trace next_name should_close rev].
    now rewrite <- app_assoc.
Qed.

Lemma GL_ERROR_DBG_world drv action file line w :
  GL_ERROR_DBG drv action file line w
  = (tt, {| trace := rev (debug_output drv action file line (trace w)) ++ trace w;
            next_name := next_name w; should_close := should_close w |}).
Proof.
  unfold GL_ERROR_DBG, debug_output. destruct (drv_NDEBUG drv).
  - destruct w; reflexivity.
  - cbv zeta. apply calls_world.
Qed.

Lemma debug_output_report drv action file line tr :
  Forall (fun c => is_report c = true) (debug_output drv action file line tr).
Proof.
  unfold debug_output. destruct (drv_NDEBUG drv); [constructor |].
  apply Forall_map. apply Forall_forall. intros o _. destruct o; reflexivity.
Qed.

Lemma filter_reports (f : Call -> bool) (cs l : list Call) :
  (forall c, is_report c = true -> f c = false) ->
  Forall (fun c => is_report c = true) cs ->
  List.filter f (rev cs ++ l) = List.filter f l.
Proof.
  intros Hf H. induction H as [| c cs Hc _ IH]; [reflexivity |].
  cbn [rev]. rewrite <- app_assoc, List.filter_app in *. cbn [Datatypes.app List.filter].
  rewrite (Hf c Hc). exact IH.
Qed.

Lemma GL_ERROR_DBG_filter drv action file line w (f : Call -> bool) :
  (forall c, is_report c = true -> f c = false) ->
  List.filter f (trace (snd (GL_ERROR_DBG drv action file line w)))
  = List.filter f (trace w).
Proof.
  intros Hf. rewrite GL_ERROR_DBG_world. cbn [snd trace].
  apply filter_reports; [exact Hf | apply debug_output_report].
Qed.

Lemma GL_ERROR_DBG_rest drv action file line w :
  next_name (snd (GL_ERROR_DBG drv action file line w)) = next_name w
  /\ should_close (snd (GL_ERROR_DBG drv action file line w)) = should_close w.
Proof. rewrite GL_ERROR_DBG_world. split; reflexivity. Qed.

Lemma report_no_draw c : is_report c = true -> is_draw c = false.
Proof. destruct c; (discriminate || reflexivity). Qed.

Lemma report_no_uniform c : is_report c = true -> is_uniform_write c = false.
Proof. destruct c; (discriminate || reflexivity). Qed.

Lemma key_in_range (key : Z) :
  0 <= key <= GLFW_KEY_LAST -> (key <? 0) || (key >? GLFW_KEY_LAST) = false.
Proof. intros H. apply orb_false_iff. split; lia. Qed.

Lemma action_not_release (action : Z) :
  action <> GLFW_RELEASE -> (action =? GLFW_RELEASE) = false.
Proof. intros H. now apply Z.eqb_neq. Qed.

Lemma uint_add_l (a b : Z) : uint (uint a + b) = uint (a + b).
Proof. unfold uint. apply Zplus_mod_idemp_l. Qed.

Lemma uint_add_r (a b : Z) : uint (a + uint b) = uint (a + b).
Proof. unfold uint. apply Zplus_mod_idemp_r. Qed.

Lemma ddiv_nonzero (x y : Q) : ~ (y == 0)%Q -> ddiv x y = Fin (x / y).
Proof.
  intros Hy. unfold ddiv. destruct (Qeq_bool y 0) eqn:E; [| reflexivity].
  apply Qeq_bool_iff in E. contradiction.
Qed.

Lemma Qle_bool_false (x y : Q) : (y < x)%Q -> Qle_bool x y = false.
Proof.
  intros H. destruct (Qle_bool x y) eqn:E; [| reflexivity].
  apply Qle_bool_iff in E. exfalso. apply (Qlt_not_le _ _ H E).
Qed.

Lemma Qle_bool_true (x y : Q) : (x <= y)%Q -> Qle_bool x y = true.
Proof. apply Qle_bool_iff. Qed.

Lemma glfwPollEvents_cons drv e evs app w :
  glfwPollEvents drv (e :: evs) app w
  = glfwPollEvents drv evs (fst (dispatch drv app e w)) (snd (dispatch drv app e w)).
Proof. reflexivity. Qed.

Lemma main_while_nil drv lv app w :
  main_while drv [] lv app w = (should_close w, (lv, app), w).
Proof. cbn. now destruct (should_close w). Qed.

Lemma main_while_cons drv tk ticks lv app w :
  main_while drv (tk :: ticks) lv app w
  = if should_close w then (true, (lv, app), w)
    else main_while drv ticks (fst (fst (loop_body drv tk lv app w)))
                    (snd (fst (loop_body drv tk lv app w)))
                    (snd (loop_body drv tk lv app w)).
Proof. reflexivity. Qed.

(** * Swapping the shader program *)

Lemma destroyShaders_app (p : Z) (app : BaseApplication) (w : World) :
  set_program p (fst (destroyShaders app w)) = set_program p app.
Proof. unfold destroyShaders. destruct (negb (program app =? 0)); reflexivity. Qed.

Lemma destroyShaders_calls (app : BaseApplication) (w : World) :
  program app <> 0 ->
  calls_between w (snd (destroyShaders app w))
    [info "deleting program %u" [arg_int (program app)]; glDeleteProgram (program app)].
Proof.
  intros Hp. unfold destroyShaders, calls_between.
  destruct (Z.eqb_spec (program app) 0) as [E | _]; [contradiction | reflexivity].
Qed.

Section InitShaders.
Variable drv : Driver.

(** [initShaders] changes the program and the four locations only. *)
Lemma initShaders_app vs fs app w :
  exists p lp lm lt lc,
    snd (fst (initShaders drv vs fs app w))
    = set_locCameraPos lc (set_locTime lt (set_locModelView lm
        (set_locProjection lp (set_program p app)))).
Proof.
  unfold initShaders, bind.
  set (p := fst (programCreateFromFiles drv vs fs _)).
  change (program (set_program p _)) with p.
  pose proof (destroyShaders_app p app w) as Ha.
  clearbody p. cbv zeta. rewrite Ha.
  destruct (p =? 0).
  - exists p, (locProjection app), (locModelView app), (locTime app), (locCameraPos app).
    now destruct app.
  - eexists p, _, _, _, _. reflexivity.
Qed.

(** C1 (as amended): [initShaders] destroys the bound program before it
    builds the new one.  When the build fails, the call returns [false],
    the program member is 0 (no program is bound) while every other member
    keeps its value, and a program that was bound has been deleted before
    the build was tried. *)
Theorem initShaders_failure_unbinds (vs fs : string) (app : BaseApplication) (w : World) :
  let w1 := snd (destroyShaders app w) in
  fst (programCreateFromFiles drv vs fs w1) = 0 ->
  initShaders drv vs fs app w
    = ((false, set_program 0 app), snd (programCreateFromFiles drv vs fs w1))
  /\ (program app <> 0 ->
      calls_between w w1
        [info "deleting program %u" [arg_int (program app)];
         glDeleteProgram (program app)]).
Proof.
  intros w1 Hfail. split.
  - unfold initShaders, bind. fold w1. rewrite Hfail.
    change (program (set_program 0 _) =? 0) with true. cbv iota.
    unfold ret. now rewrite destroyShaders_app.
  - apply destroyShaders_calls.
Qed.

(** C9: after a successful build the location of [cameraPosition] is
    resolved and logged; a frame writes the three uniforms [projection],
    [modelView] and [time] and no other, leaves the program and the four
    stored locations as they were, and what it does is the same whatever
    the stored location of [cameraPosition] is. *)
Theorem cameraPosition_resolved_never_set :
  (forall vs fs app w,
      let r := initShaders drv vs fs app w in
      fst (fst r) = true ->
      locCameraPos (snd (fst r))
        = drv_glGetUniformLocation drv (program (snd (fst r))) "cameraPosition"
      /\ hd_error (trace (snd r))
         = Some (info "program %u: location for 'locCameraPos' uniform: %d"
                      [arg_int (program (snd (fst r)));
                       arg_int (locCameraPos (snd (fst r)))]))
  /\ (forall app w,
      let r := displayFunc drv app w in
      List.filter is_uniform_write (trace (snd r))
        = [ glUniform1f (locTime app) (timeCur app);
            glUniformMatrix4fv (locModelView app)
              (mat4_mul (view (fst r)) (model (cube (fst r))));
            glUniformMatrix4fv (locProjection app) (projection (fst r)) ]
          ++ List.filter is_uniform_write (trace w)
      /\ program (fst r) = program app
      /\ locProjection (fst r) = locProjection app
      /\ locModelView (fst r) = locModelView app
      /\ locTime (fst r) = locTime app
      /\ locCameraPos (fst r) = locCameraPos app
      /\ forall x, snd (displayFunc drv (set_locCameraPos x app) w) = snd r).
Proof.
  split.
  - intros vs fs app w r. subst r. unfold initShaders, bind.
    set (p := fst (programCreateFromFiles drv vs fs _)).
    change (program (set_program p _)) with p.
    destruct (p =? 0); [discriminate |]. intros _. split; reflexivity.
  - intros app w. cbn.
    rewrite GL_ERROR_DBG_filter by exact report_no_uniform. cbn.
    repeat split; reflexivity.
Qed.

End InitShaders.

Lemma initShaders_failure_unbinds_witness :
  fst (programCreateFromFiles demo_driver
         "shaders/yourshader.vs.glsl" "shaders/yourshader.fs.glsl"
         (snd (destroyShaders demo_app demo_running))) = 0
  /\ initShaders demo_driver "shaders/yourshader.vs.glsl" "shaders/yourshader.fs.glsl"
                 demo_app demo_running
     = ((false, set_program 0 demo_app),
        snd (programCreateFromFiles demo_driver
               "shaders/yourshader.vs.glsl" "shaders/yourshader.fs.glsl"
               (snd (destroyShaders demo_app demo_running)))).
Proof.
  split; [reflexivity |].
  apply (initShaders_failure_unbinds demo_driver). reflexivity.
Defined.

(** C1 as the specification states it fails: program 6 is bound, the
    placeholder pair of key 5 does not build, and afterwards program 6 is
    deleted and no program is bound. *)
Lemma initShaders_failure_counterexample :
  let r := initShaders demo_driver "shaders/yourshader.vs.glsl" "shaders/yourshader.fs.glsl"
                       demo_app demo_running in
  program demo_app = 6 /\
  fst (fst r) = false /\
  program (snd (fst r)) = 0 /\
  In (glDeleteProgram 6) (trace (snd r)).
Proof. vm_compute. repeat split. find_call. Qed.

Lemma cameraPosition_resolved_never_set_witness :
  let r := initShaders demo_driver "shaders/color.vs.glsl" "shaders/color.fs.glsl"
                       demo_app demo_running in
  fst (fst r) = true /\ locCameraPos (snd (fst r)) = -1.
Proof.
  split; [reflexivity |].
  destruct (proj1 (cameraPosition_resolved_never_set demo_driver)
              "shaders/color.vs.glsl" "shaders/color.fs.glsl" demo_app demo_running eq_refl)
    as [H _].
  rewrite H. reflexivity.
Defined.

(** * Drawing a frame *)

(** What [getGLError] prints when it is given a file and a line. *)
Lemma getGLError_located action file line pending :
  line <> 0 ->
  Forall (fun e => e <> GL_NO_ERROR) pending ->
  snd (fst (getGLError action false (Some file) line pending))
  = flat_map (fun e => [print_file file; print_line line; warn_error e action]) pending.
Proof.
  intros Hl H. unfold getGLError. generalize GL_NO_ERROR. intros err. revert err.
  apply Z.eqb_neq in Hl.
  induction H as [| e rest He _ IH]; intros err; [reflexivity |].
  cbn [getGLError_loop flat_map]. apply Z.eqb_neq in He. rewrite He, Hl.
  cbn [fst snd Datatypes.app]. now rewrite IH.
Qed.

Lemma displayFunc_draw_count drv (app : BaseApplication) (w : World) :
  draw_count (snd (displayFunc drv app w)) = draw_count w + 1.
Proof.
  unfold draw_count. cbn.
  rewrite GL_ERROR_DBG_filter by exact report_no_draw. cbn. lia.
Qed.

Lemma displayFunc_rest drv (app : BaseApplication) (w : World) :
  next_name (snd (displayFunc drv app w)) = next_name w
  /\ should_close (snd (displayFunc drv app w)) = should_close w.
Proof.
  unfold displayFunc, bind. cbn [ret snd].
  destruct (GL_ERROR_DBG_rest drv "display function" "HelloCube.cpp" 127
              (snd (call (glfwSwapBuffers (win app))
                 (snd (call (glUseProgram 0) (snd (call (glBindVertexArray 0)
                   (snd (call (glDrawElements (6 * 6))
                     (snd (call (glBindVertexArray (vao (cube app)))
                       (snd (call (glUniform1f (locTime app) (timeCur app))
                         (snd (call (glUniformMatrix4fv (locModelView app)
                                 (mat4_mul (translate (mk_vec3 0 0 (-4)))
                                    (rotate (model (cube app))
                                       (half_pi * timeDelta app) cube_axis)))
                           (snd (call (glUniformMatrix4fv (locProjection app)
                                   (perspective half_pi_float
                                      (ddiv (inject_Z (width app))
                                         (inject_Z (height app))) (1 # 10) 10))
                             (snd (call (glUseProgram (program app))
                               (snd (call glClear
                                 (snd (call (glViewport 0 0 (width app) (height app))
                                    w))))))))))))))))))))))) as [H1 H2].
  split; [exact H1 | exact H2].
Qed.

(** C2 (as amended): a frame makes the same calls into the GL whether or
    not a program is bound: it selects the program member (0 when none is
    bound), writes the three uniforms, draws the cube exactly once and
    swaps the buffers.  A build with [NDEBUG] makes no other call and
    reports nothing.  A build without ends the frame in [GL_ERROR_DBG],
    which prints the file, the line and a warning for every error flag
    that is set in the context, and nothing when none is set; the frame is
    drawn all the same. *)
Theorem displayFunc_draws_once drv (app : BaseApplication) (w : World) :
  let app' := fst (displayFunc drv app w) in
  let frame_calls :=
    [ glViewport 0 0 (width app) (height app);
      glClear;
      glUseProgram (program app);
      glUniformMatrix4fv (locProjection app) (projection app');
      glUniformMatrix4fv (locModelView app) (mat4_mul (view app') (model (cube app')));
      glUniform1f (locTime app) (timeCur app);
      glBindVertexArray (vao (cube app));
      glDrawElements 36;
      glBindVertexArray 0;
      glUseProgram 0;
      glfwSwapBuffers (win app) ] in
  let pending := drv_glGetError drv (rev frame_calls ++ trace w) in
  calls_between w (snd (displayFunc drv app w))
    (frame_calls
     ++ debug_output drv "display function" "HelloCube.cpp" 127 (rev frame_calls ++ trace w))
  /\ draw_count (snd (displayFunc drv app w)) = draw_count w + 1
  /\ (drv_NDEBUG drv = true -> calls_between w (snd (displayFunc drv app w)) frame_calls)
  /\ (drv_NDEBUG drv = false ->
      Forall (fun e => e <> GL_NO_ERROR) pending ->
      calls_between w (snd (displayFunc drv app w))
        (frame_calls
         ++ flat_map (fun e => [ fprintf_stderr "%s:" [arg_str "HelloCube.cpp"];
                                 fprintf_stderr "%d:" [arg_int 127];
                                 warn "GL error 0x%x at %s"
                                      [arg_int e; arg_str "display function"] ])
                     pending)).
Proof.
  cbv zeta.
  assert (H : calls_between w (snd (displayFunc drv app w))
                ([ glViewport 0 0 (width app) (height app);
                   glClear;
                   glUseProgram (program app);
                   glUniformMatrix4fv (locProjection app)
                     (projection (fst (displayFunc drv app w)));
                   glUniformMatrix4fv (locModelView app)
                     (mat4_mul (view (fst (displayFunc drv app w)))
                               (model (cube (fst (displayFunc drv app w)))));
                   glUniform1f (locTime app) (timeCur app);
                   glBindVertexArray (vao (cube app));
                   glDrawElements 36;
                   glBindVertexArray 0;
                   glUseProgram 0;
                   glfwSwapBuffers (win app) ]
                 ++ debug_output drv "display function" "HelloCube.cpp" 127
                      (rev [ glViewport 0 0 (width app) (height app);
                             glClear;
                             glUseProgram (program app);
                             glUniformMatrix4fv (locProjection app)
                               (projection (fst (displayFunc drv app w)));
                             glUniformMatrix4fv (locModelView app)
                               (mat4_mul (view (fst (displayFunc drv app w)))
                                         (model (cube (fst (displayFunc drv app w)))));
                             glUniform1f (locTime app) (timeCur app);
                             glBindVertexArray (vao (cube app));
                             glDrawElements 36;
                             glBindVertexArray 0;
                             glUseProgram 0;
                             glfwSwapBuffers (win app) ] ++ trace w))).
  { unfold calls_between. rewrite rev_app_distr, <- app_assoc.
    unfold displayFunc, bind.
    cbn [call ret fst snd trace set_projection set_view set_cube projection view cube
         model set_model width height program locProjection locModelView locTime timeCur
         vao win].
    rewrite GL_ERROR_DBG_world. reflexivity. }
  split; [exact H |]. split; [apply displayFunc_draw_count |]. split.
  - intros Hn. unfold debug_output in H. rewrite Hn, app_nil_r in H. exact H.
  - intros Hn Hp. unfold debug_output in H. rewrite Hn in H.
    rewrite getGLError_located in H by (discriminate || exact Hp).
    assert (E : forall l,
              map report (flat_map (fun e => [print_file "HelloCube.cpp"; print_line 127;
                                              warn_error e "display function"]) l)
              = flat_map (fun e => [ fprintf_stderr "%s:" [arg_str "HelloCube.cpp"];
                                     fprintf_stderr "%d:" [arg_int 127];
                                     warn "GL error 0x%x at %s"
                                          [arg_int e; arg_str "display function"] ]) l).
    { induction l as [| e l IH]; [reflexivity |].
      cbn [flat_map map Datatypes.app report]. now rewrite IH. }
    rewrite E in H. exact H.
Qed.

(** A build without [NDEBUG], the frame after key 5: when the buffers have
    been swapped one flag is set, and the frame ends with one warning. *)
Lemma displayFunc_draws_once_witness :
  let r := callback_Keyboard debug_driver 53 0 GLFW_PRESS 0 demo_app demo_running in
  let swapped := trace (snd (displayFunc demo_driver (fst r) (snd r))) in
  (drv_NDEBUG debug_driver = false
   /\ drv_glGetError debug_driver swapped = [GL_INVALID_OPERATION])
  /\ firstn 4 (trace (snd (displayFunc debug_driver (fst r) (snd r))))
     = [ warn "GL error 0x%x at %s" [arg_int GL_INVALID_OPERATION; arg_str "display function"];
         fprintf_stderr "%d:" [arg_int 127];
         fprintf_stderr "%s:" [arg_str "HelloCube.cpp"];
         glfwSwapBuffers (win (fst r)) ].
Proof.
  intros r swapped.
  pose proof (proj2 (proj2 (proj2 (displayFunc_draws_once debug_driver (fst r) (snd r)))))
    as H.
  cbv zeta in H. split.
  - split; [reflexivity | vm_compute; reflexivity].
  - unfold calls_between in H. rewrite H.
    + vm_compute. reflexivity.
    + reflexivity.
    + vm_compute. repeat constructor; discriminate.
Defined.

(** C2 as the specification states it fails: key 5 is pressed while a
    program is bound, its placeholder pair does not build and no program is
    bound any more; the next frame still draws the cube, and in a build
    without [NDEBUG] it warns of the error the GL has flagged. *)
Lemma displayFunc_unbound_counterexample :
  let r := callback_Keyboard debug_driver 53 0 GLFW_PRESS 0 demo_app demo_running in
  let r' := displayFunc debug_driver (fst r) (snd r) in
  program (fst r) = 0 /\
  draw_count (snd r') = draw_count (snd r) + 1 /\
  In (glUseProgram 0) (firstn 12 (trace (snd r'))) /\
  In (glDrawElements 36) (firstn 12 (trace (snd r'))) /\
  hd_error (trace (snd r'))
  = Some (warn "GL error 0x%x at %s"
               [arg_int GL_INVALID_OPERATION; arg_str "display function"]).
Proof. vm_compute. repeat split; find_call. Qed.

(** * Cleaning up *)

Lemma Cube_destroy_zeroes (c : Cube) (w : World) :
  let c' := fst (Cube_destroy c w) in
  vao c' = 0 /\ vbo0 c' = 0 /\ vbo1 c' = 0.
Proof.
  unfold Cube_destroy, bind. cbn [call fst snd].
  destruct (vao c =? 0) eqn:Ha; cbn;
    destruct (vbo0 c =? 0) eqn:H0, (vbo1 c =? 0) eqn:H1; cbn;
    repeat split; try reflexivity; apply Z.eqb_eq; assumption.
Qed.

Lemma Cube_destroy_clean (c : Cube) (w : World) :
  vao c = 0 -> vbo0 c = 0 -> vbo1 c = 0 ->
  Cube_destroy c w = (c, snd (call (glBindVertexArray 0) w)).
Proof.
  intros Ha H0 H1. unfold Cube_destroy, bind. cbn [call fst snd].
  rewrite Ha. cbn [Z.eqb negb ret fst snd]. rewrite H0, H1. reflexivity.
Qed.

Lemma destroyShaders_clean (app : BaseApplication) (w : World) :
  program app = 0 -> destroyShaders app w = (app, w).
Proof. intros Hp. unfold destroyShaders. rewrite Hp. reflexivity. Qed.

(** What [destroy] leaves: the GL objects are zeroed, the window handle and
    the flags are not. *)
Lemma destroy_leaves (app : BaseApplication) (w : World) :
  flags app <> 0 ->
  let app1 := fst (destroy app w) in
  flags app1 = flags app /\ win app1 = win app /\ program app1 = 0 /\
  vao (cube app1) = 0 /\ vbo0 (cube app1) = 0 /\ vbo1 (cube app1) = 0.
Proof.
  intros Hf. unfold destroy. apply Z.eqb_neq in Hf. rewrite Hf. cbn [negb].
  unfold bind. cbn [ret fst snd].
  pose proof (Cube_destroy_zeroes (cube app) w) as Hc. cbv zeta in Hc.
  set (c := fst (Cube_destroy (cube app) w)) in *.
  set (w1 := snd (Cube_destroy (cube app) w)). clearbody c w1.
  unfold destroyShaders. cbn [program set_cube].
  destruct (negb (program app =? 0)) eqn:Hp; cbn; repeat split; try apply Hc.
  apply negb_false_iff, Z.eqb_eq in Hp. exact Hp.
Qed.

(** A second call of [destroy] releases no GL object, and destroys the
    window once more. *)
Lemma destroy_again (app : BaseApplication) (w w' : World) :
  flags app <> 0 -> win app <> 0 ->
  let app1 := fst (destroy app w) in
  calls_between w' (snd (destroy app1 w'))
    [glBindVertexArray 0; glfwDestroyWindow (win app); glfwTerminate].
Proof.
  intros Hf Hw app1.
  destruct (destroy_leaves app w Hf) as (Ef & Ew & Ep & Ea & E0 & E1).
  fold app1 in Ef, Ew, Ep, Ea, E0, E1. clearbody app1.
  unfold destroy, calls_between. rewrite Ef.
  apply Z.eqb_neq in Hf. rewrite Hf. cbn [negb]. unfold bind.
  rewrite (Cube_destroy_clean _ _ Ea E0 E1). cbn [fst snd].
  rewrite destroyShaders_clean by exact Ep. cbn [fst snd win set_cube].
  rewrite Ew. apply Z.eqb_neq in Hw. rewrite Hw. reflexivity.
Qed.

(** C3 (the code falls short of it): after a successful start, [destroy]
    called twice destroys the window twice: the first call leaves the
    window handle and the flags as they were, so the second call passes the
    stale handle to [glfwDestroyWindow] again (and terminates GLFW again).
    Only the buffers, the vertex array and the program are zeroed. *)
Theorem destroy_twice_destroys_window_twice :
  let r1 := destroy demo_app demo_running in
  let r2 := destroy (fst r1) (snd r1) in
  win demo_app = 1000 /\
  In (glfwDestroyWindow 1000) (trace (snd r1)) /\
  win (fst r1) = 1000 /\ flags (fst r1) = 1 /\
  calls_between (snd r1) (snd r2)
    [glBindVertexArray 0; glfwDestroyWindow 1000; glfwTerminate].
Proof. vm_compute. repeat split. find_call. Qed.

(** * The keyboard *)


Lemma key_down_lookup (key : Z) (app : BaseApplication) (b : bool) :
  pressedKeys app !! Z.to_nat key = Some b -> key_down app key = b.
Proof. intros H. unfold key_down. now rewrite H. Qed.


Section Keyboard.
Variable drv : Driver.

(** The handler of a key leaves the key arrays alone. *)
Lemma handle_key_keys (key : Z) (app : BaseApplication) (w : World) :
  pressedKeys (fst (handle_key drv key app w)) = pressedKeys app.
Proof.
  unfold handle_key.
  destruct ((CHAR_0 <=? key) && (key <=? CHAR_9)).
  - unfold bind, ret. cbn [fst snd].
    destruct (initShaders_app drv
                (fst (nth (Z.to_nat (key - CHAR_0)) shaders ("", "")))
                (snd (nth (Z.to_nat (key - CHAR_0)) shaders ("", ""))) app w)
      as (p & lp & lm & lt & lc & ->).
    reflexivity.
  - destruct (key =? GLFW_KEY_ESCAPE); reflexivity.
Qed.

(** A press or repeat event for a key that is not down runs the handler. *)
Lemma callback_Keyboard_edge key scancode action mods app w :
  0 <= key <= GLFW_KEY_LAST ->
  action <> GLFW_RELEASE ->
  key_down app key = false ->
  callback_Keyboard drv key scancode action mods app w
  = (set_key key true (fst (handle_key drv key app w)), snd (handle_key drv key app w)).
Proof.
  intros Hk Ha Hd. unfold callback_Keyboard.
  rewrite (key_in_range _ Hk), (action_not_release _ Ha), Hd. reflexivity.
Qed.






(** C8: on a press edge, a digit key swaps to the pair of files its entry
    of the ten-entry table names, Escape asks the window to close, and any
    other key only becomes down. *)
Theorem key_press_actions key scancode action mods app w :
  0 <= key <= GLFW_KEY_LAST ->
  action <> GLFW_RELEASE ->
  key_down app key = false ->
  let r := callback_Keyboard drv key scancode action mods app w in
  length shaders = 10%nat
  /\ (CHAR_0 <= key <= CHAR_9 ->
      exists vs fs,
        shaders !! Z.to_nat (key - CHAR_0) = Some (vs, fs)
        /\ r = (set_key key true (snd (fst (initShaders drv vs fs app w))),
                snd (initShaders drv vs fs app w)))
  /\ (key = GLFW_KEY_ESCAPE ->
      r = (set_key key true app,
           {| trace := glfwSetWindowShouldClose (win app) 1 :: trace w;
              next_name := next_name w;
              should_close := true |}))
  /\ (~ CHAR_0 <= key <= CHAR_9 -> key <> GLFW_KEY_ESCAPE ->
      r = (set_key key true app, w)).
Proof.
  intros Hk Ha Hd r. unfold r. rewrite callback_Keyboard_edge by assumption.
  split; [reflexivity |]. unfold handle_key. repeat split.
  - intros Hdigit.
    replace ((CHAR_0 <=? key) && (key <=? CHAR_9)) with true
      by (symmetry; apply andb_true_iff; split; lia).
    destruct (nth_lookup_or_length shaders (Z.to_nat (key - CHAR_0)) ("", ""))
      as [Hn | Hlen].
    + destruct (nth (Z.to_nat (key - CHAR_0)) shaders ("", "")) as [vs fs] eqn:E.
      exists vs, fs. split; [exact Hn | reflexivity].
    + exfalso. unfold CHAR_0, CHAR_9 in *. cbn in Hlen. lia.
  - intros ->. reflexivity.
  - intros Hnd Hne.
    replace ((CHAR_0 <=? key) && (key <=? CHAR_9)) with false
      by (symmetry; apply andb_false_iff; lia).
    now rewrite (proj2 (Z.eqb_neq _ _) Hne).
Qed.

(** What the events of a tick leave alone. *)
Lemma dispatch_scene app e w : scene_kept app (fst (dispatch drv app e w)).
Proof.
  destruct e as [k sc a m | |]; cbn [dispatch]; [| now repeat split | now repeat split].
  unfold callback_Keyboard.
  destruct ((k <? 0) || (k >? GLFW_KEY_LAST)); [now repeat split |].
  destruct (a =? GLFW_RELEASE); [now repeat split |].
  unfold bind, ret. cbn [fst snd].
  destruct (negb (key_down app k)); [| now repeat split].
  unfold handle_key.
  destruct ((CHAR_0 <=? k) && (k <=? CHAR_9)).
  - unfold bind, ret. cbn [fst snd].
    destruct (initShaders_app drv
                (fst (nth (Z.to_nat (k - CHAR_0)) shaders ("", "")))
                (snd (nth (Z.to_nat (k - CHAR_0)) shaders ("", ""))) app w)
      as (p & lp & lm & lt & lc & ->).
    now repeat split.
  - destruct (k =? GLFW_KEY_ESCAPE); now repeat split.
Qed.

Lemma glfwPollEvents_scene evs app w : scene_kept app (fst (glfwPollEvents drv evs app w)).
Proof.
  revert app w. induction evs as [| e evs IH]; intros app w; [now repeat split |].
  rewrite glfwPollEvents_cons.
  pose proof (dispatch_scene app e w) as H1.
  pose proof (IH (fst (dispatch drv app e w)) (snd (dispatch drv app e w))) as H2.
  unfold scene_kept in *. intuition congruence.
Qed.

End Keyboard.


Lemma key_press_actions_witness :
  key_down demo_app 256 = false
  /\ callback_Keyboard demo_driver 256 0 GLFW_PRESS 0 demo_app demo_running
     = (set_key 256 true demo_app,
        {| trace := glfwSetWindowShouldClose (win demo_app) 1 :: trace demo_running;
           next_name := next_name demo_running;
           should_close := true |}).
Proof.
  split; [reflexivity |].
  refine (proj1 (proj2 (proj2 (key_press_actions demo_driver 256 0 GLFW_PRESS 0
                                 demo_app demo_running _ _ _))) eq_refl).
  - unfold GLFW_KEY_LAST. lia.
  - discriminate.
  - reflexivity.
Defined.

(** ** The array of released keys *)

Lemma clear_keys_arrays (idxs : list nat) (app : BaseApplication) :
  pressedKeys (foldl clear_key app idxs)
    = foldl (fun l i => <[i := false]> l) (pressedKeys app) idxs
  /\ releasedKeys (foldl clear_key app idxs)
    = foldl (fun l i => <[i := false]> l) (releasedKeys app) idxs.
Proof.
  revert app. induction idxs as [| i idxs IH]; intros app; [now split |].
  cbn [foldl]. destruct (IH (clear_key app i)) as [-> ->]. now split.
Qed.

Lemma clear_prefix (k : nat) (l : list bool) :
  (k <= length l)%nat ->
  foldl (fun l i => <[i := false]> l) l (seq 0 k) = replicate k false ++ drop k l.
Proof.
  induction k as [| k IH]; intros Hk.
  - now rewrite drop_0.
  - rewrite seq_S, foldl_app, IH by lia. cbn [foldl Nat.add].
    rewrite insert_app_r_alt by (rewrite length_replicate; lia).
    rewrite length_replicate, Nat.sub_diag.
    destruct (drop k l) as [| b tl] eqn:E.
    + exfalso. apply (f_equal length) in E. rewrite length_drop in E. cbn in E. lia.
    + cbn [insert list_insert].
      assert (Htl : drop (S k) l = tl).
      { replace (S k) with (k + 1)%nat by lia. rewrite <- drop_drop, E. reflexivity. }
      rewrite Htl, replicate_S_end, <- app_assoc. reflexivity.
Qed.

Lemma clear_all (l : list bool) :
  foldl (fun l i => <[i := false]> l) l (seq 0 (length l)) = replicate (length l) false.
Proof. rewrite clear_prefix, drop_all by lia. apply app_nil_r. Qed.

Section Released.
Variable drv : Driver.

Lemma initBaseApp_releasedKeys w h title t app wd :
  releasedKeys (snd (fst (initBaseApp drv w h title t app wd)))
  = foldl (fun l i => <[i := false]> l) (releasedKeys app)
          (seq 0 (Z.to_nat (GLFW_KEY_LAST + 1))).
Proof.
  rewrite <- (proj2 (clear_keys_arrays _
                (set_avg_fps (Fin (-1)) (set_avg_frametime (Fin (-1))
                   (set_flags 1 (set_height h (set_width w (set_win 0 app)))))))).
  unfold initBaseApp. cbv zeta.
  fold (clear_keys (set_avg_fps (Fin (-1)) (set_avg_frametime (Fin (-1))
                      (set_flags 1 (set_height h (set_width w (set_win 0 app))))))).
  generalize (clear_keys (set_avg_fps (Fin (-1)) (set_avg_frametime (Fin (-1))
                      (set_flags 1 (set_height h (set_width w (set_win 0 app))))))).
  intros a.
  destruct (drv_glfwInit drv); [| reflexivity]. cbn.
  destruct (drv_glfwCreateWindow drv =? 0); [reflexivity |].
  destruct (drv_gladLoadGL drv); reflexivity.
Qed.

Lemma loop_body_releasedKeys tk lv app w :
  releasedKeys (snd (fst (loop_body drv tk lv app w))) = releasedKeys app.
Proof.
  unfold loop_body, bind. cbn [ret fst snd].
  match goal with |- context [glfwPollEvents drv ?evs ?a ?v] =>
    pose proof (glfwPollEvents_scene drv evs a v) as Hs end.
  unfold scene_kept in Hs. destruct Hs as (_ & _ & _ & _ & _ & _ & -> & _).
  unfold update_fps_estimate. cbn.
  destruct (Qle_bool 1 _); reflexivity.
Qed.

Lemma destroy_releasedKeys app w :
  releasedKeys (fst (destroy app w)) = releasedKeys app.
Proof.
  unfold destroy. destruct (negb (flags app =? 0)); [| reflexivity].
  unfold bind. cbn. unfold destroyShaders. cbn.
  destruct (negb (program app =? 0)); reflexivity.
Qed.

Lemma destroyShaders_set_releasedKeys rk app w :
  destroyShaders (set_releasedKeys rk app) w
  = (set_releasedKeys rk (fst (destroyShaders app w)), snd (destroyShaders app w)).
Proof. unfold destroyShaders. cbn. destruct (negb (program app =? 0)); reflexivity. Qed.

Lemma initShaders_set_releasedKeys vs fs rk app w :
  initShaders drv vs fs (set_releasedKeys rk app) w
  = ((fst (fst (initShaders drv vs fs app w)),
      set_releasedKeys rk (snd (fst (initShaders drv vs fs app w)))),
     snd (initShaders drv vs fs app w)).
Proof.
  unfold initShaders, bind. rewrite destroyShaders_set_releasedKeys. cbn [fst snd].
  set (p := fst (programCreateFromFiles drv vs fs _)).
  change (program (set_program p _)) with p.
  destruct (p =? 0); reflexivity.
Qed.

Lemma handle_key_set_releasedKeys key rk app w :
  handle_key drv key (set_releasedKeys rk app) w
  = (set_releasedKeys rk (fst (handle_key drv key app w)), snd (handle_key drv key app w)).
Proof.
  unfold handle_key.
  destruct ((CHAR_0 <=? key) && (key <=? CHAR_9)).
  - unfold bind. rewrite initShaders_set_releasedKeys. reflexivity.
  - destruct (key =? GLFW_KEY_ESCAPE); reflexivity.
Qed.

Lemma reachable_releasedKeys (app : BaseApplication) :
  reachable drv app ->
  releasedKeys app = replicate (Z.to_nat (GLFW_KEY_LAST + 1)) false.
Proof.
  intros Hreach.
  induction Hreach as [w h title t app0 wd Hp Hr | vs fs app wd _ IH
                      | key sc a m app wd _ IH | w h app wd _ IH
                      | tk lv app wd _ IH | app wd _ IH].
  - rewrite initBaseApp_releasedKeys, <- Hr. apply clear_all.
  - destruct (initShaders_app drv vs fs app wd) as (p & lp & lm & lt & lc & ->).
    exact IH.
  - rewrite <- IH.
    apply (dispatch_scene drv app (key_event key sc a m) wd).
  - exact IH.
  - now rewrite loop_body_releasedKeys.
  - now rewrite destroy_releasedKeys.
Qed.

(** C10: in every state the program can be in, every entry of
    [releasedKeys] is [false] (it is written by [initBaseApp] and by nothing
    else), and the keyboard callback does the same whatever [releasedKeys]
    holds: the detection of a press looks at [pressedKeys] alone. *)
Theorem releasedKeys_never_set (app : BaseApplication) :
  reachable drv app ->
  (forall k, 0 <= k <= GLFW_KEY_LAST -> releasedKeys app !! Z.to_nat k = Some false)
  /\ forall rk key scancode action mods w,
      callback_Keyboard drv key scancode action mods (set_releasedKeys rk app) w
      = (set_releasedKeys rk (fst (callback_Keyboard drv key scancode action mods app w)),
         snd (callback_Keyboard drv key scancode action mods app w)).
Proof.
  intros Hreach. split.
  - intros k Hk. rewrite (reachable_releasedKeys app Hreach).
    apply lookup_replicate_2. unfold GLFW_KEY_LAST in *. lia.
  - intros rk key sc a m w. unfold callback_Keyboard.
    destruct ((key <? 0) || (key >? GLFW_KEY_LAST)); [reflexivity |].
    destruct (a =? GLFW_RELEASE); [reflexivity |].
    change (key_down (set_releasedKeys rk app) key) with (key_down app key).
    destruct (negb (key_down app key)).
    + unfold bind. rewrite handle_key_set_releasedKeys. reflexivity.
    + reflexivity.
Qed.

End Released.

Lemma demo_app_reachable : reachable demo_driver demo_app.
Proof.
  apply (reach_initShaders demo_driver "shaders/raymarch.vs.glsl" "shaders/raymarch.fs.glsl").
  apply (reach_initBaseApp demo_driver 800 600 APP_TITLE 0 demo_garbage demo_world);
    reflexivity.
Defined.

Lemma releasedKeys_never_set_witness :
  releasedKeys demo_garbage !! Z.to_nat 65 = Some true
  /\ releasedKeys demo_app !! Z.to_nat 65 = Some false.
Proof.
  split; [reflexivity |].
  refine (proj1 (releasedKeys_never_set demo_driver demo_app demo_app_reachable) 65 _).
  unfold GLFW_KEY_LAST. lia.
Defined.

(** * The main loop *)

(** ** Steps that draw nothing and keep a close request *)

Lemma stable_refl (w : World) : stable w w.
Proof. now split. Qed.

Lemma stable_trans (w1 w2 w3 : World) : stable w1 w2 -> stable w2 w3 -> stable w1 w3.
Proof. intros [D1 C1] [D2 C2]. split; [congruence | auto]. Qed.

Lemma quiet_ret {A : Type} (x : A) : quiet (ret x).
Proof. intros w. apply stable_refl. Qed.

Lemma quiet_bind {A B : Type} (m : M A) (k : A -> M B) :
  quiet m -> (forall x, quiet (k x)) -> quiet (bind m k).
Proof. intros Hm Hk w. unfold bind. eapply stable_trans; [apply Hm | apply Hk]. Qed.

Lemma quiet_call (c : Call) : is_draw c = false -> quiet (call c).
Proof. intros Hc w. split; [| auto]. unfold draw_count. cbn. now rewrite Hc. Qed.

Lemma quiet_fresh_name : quiet fresh_name.
Proof. intros w. now split. Qed.

Lemma quiet_close : quiet (set_should_close true).
Proof. intros w. now split. Qed.

Lemma quiet_when (b : bool) (m : M unit) : quiet m -> quiet (when b m).
Proof. intros Hm. destruct b; [exact Hm | apply quiet_ret]. Qed.

Lemma quiet_GL_ERROR_DBG drv action file line :
  quiet (GL_ERROR_DBG drv action file line).
Proof.
  intros w. split.
  - unfold draw_count. now rewrite GL_ERROR_DBG_filter by exact report_no_draw.
  - now rewrite (proj2 (GL_ERROR_DBG_rest _ _ _ _ _)).
Qed.

(** Decompose a computation into its calls. *)
Ltac quiet_steps :=
  repeat first
    [ match goal with H : forall _, _ |- _ => simple apply H end
    | simple apply quiet_GL_ERROR_DBG
    | simple apply @quiet_ret
    | simple apply quiet_fresh_name
    | simple apply quiet_close
    | simple apply quiet_call; reflexivity
    | simple apply quiet_when
    | simple apply @quiet_bind; [| intros ?]
    | match goal with
      | |- quiet (let _ := _ in _) => cbv zeta
      | |- quiet (if ?b then _ else _) => destruct b
      | |- quiet (match ?o with Some _ => _ | None => _ end) => destruct o
      end ].

Section Quiet.
Variable drv : Driver.

Lemma quiet_shaderCreateFromFileAndCompile type filename :
  quiet (shaderCreateFromFileAndCompile drv type filename).
Proof. unfold shaderCreateFromFileAndCompile, shaderCreateAndCompile. quiet_steps. Qed.

Lemma quiet_programCreate vs fs : quiet (programCreate drv vs fs).
Proof. unfold programCreate. quiet_steps. Qed.

Lemma quiet_programCreateFromFiles vs fs : quiet (programCreateFromFiles drv vs fs).
Proof.
  unfold programCreateFromFiles.
  pose proof quiet_shaderCreateFromFileAndCompile.
  pose proof quiet_programCreate.
  quiet_steps.
Qed.

Lemma quiet_destroyShaders app : quiet (destroyShaders app).
Proof. unfold destroyShaders. quiet_steps. Qed.

Lemma quiet_initShaders vs fs app : quiet (initShaders drv vs fs app).
Proof.
  unfold initShaders.
  pose proof quiet_destroyShaders. pose proof quiet_programCreateFromFiles.
  quiet_steps.
Qed.

Lemma quiet_callback_Keyboard key scancode action mods app :
  quiet (callback_Keyboard drv key scancode action mods app).
Proof.
  unfold callback_Keyboard, handle_key. pose proof quiet_initShaders. quiet_steps.
Qed.

Lemma quiet_dispatch app e : quiet (dispatch drv app e).
Proof.
  destruct e; cbn [dispatch]; [apply quiet_callback_Keyboard | |];
    unfold callback_Resize; quiet_steps.
Qed.

Lemma quiet_glfwPollEvents evs app : quiet (glfwPollEvents drv evs app).
Proof.
  revert app. induction evs as [| e evs IH]; intros app; cbn [glfwPollEvents].
  - apply quiet_ret.
  - apply quiet_bind; [apply quiet_dispatch | exact IH].
Qed.

Lemma quiet_update_fps_estimate lv app : quiet (update_fps_estimate lv app).
Proof. unfold update_fps_estimate. quiet_steps. Qed.

(** A close event among the pending ones leaves the close flag set. *)
Lemma glfwPollEvents_close evs app w :
  In close_event evs -> should_close (snd (glfwPollEvents drv evs app w)) = true.
Proof.
  revert app w. induction evs as [| e evs IH]; intros app w Hin; [destruct Hin |].
  rewrite glfwPollEvents_cons. destruct Hin as [-> | Hin].
  - apply quiet_glfwPollEvents. reflexivity.
  - now apply IH.
Qed.

(** One iteration draws once. *)
Lemma loop_body_draws tk lv app w :
  draw_count (snd (loop_body drv tk lv app w)) = draw_count w + 1.
Proof.
  unfold loop_body, bind. cbn [ret fst snd].
  rewrite (proj1 (quiet_glfwPollEvents _ _ _)).
  rewrite displayFunc_draw_count.
  now rewrite (proj1 (quiet_update_fps_estimate _ _ _)).
Qed.

Lemma loop_body_close tk lv app w :
  In close_event (events tk) -> should_close (snd (loop_body drv tk lv app w)) = true.
Proof. intros Hin. unfold loop_body, bind. cbn [ret fst snd]. now apply glfwPollEvents_close. Qed.

End Quiet.

(** ** The frame counters *)










Section Counters.
Variable drv : Driver.

(** The two counters of one iteration: together they count the draw. *)
Lemma loop_body_counters tk lv app w :
  let lv' := fst (fst (loop_body drv tk lv app w)) in
  uint (frames_total lv' + frame lv') = uint (frames_total lv + frame lv + 1).
Proof.
  unfold loop_body, bind. cbn [ret fst snd]. unfold update_fps_estimate.
  destruct (Qle_bool 1 _); cbn.
  - rewrite uint_add_r, uint_add_l. reflexivity.
  - rewrite uint_add_r. f_equal. lia.
Qed.

(** Over the whole loop the two counters together count the draws, modulo
    2^32. *)
Lemma main_while_counters ticks lv app w :
  let r := main_while drv ticks lv app w in
  let lv' := fst (snd (fst r)) in
  draw_count w <= draw_count (snd r)
  /\ uint (frames_total lv' + frame lv')
     = uint (frames_total lv + frame lv + (draw_count (snd r) - draw_count w)).
Proof.
  revert lv app w. induction ticks as [| tk ticks IH]; intros lv app w.
  - rewrite main_while_nil. cbn. split; [lia | f_equal; lia].
  - rewrite main_while_cons. destruct (should_close w).
    + cbn. split; [lia | f_equal; lia].
    + specialize (IH (fst (fst (loop_body drv tk lv app w)))
                     (snd (fst (loop_body drv tk lv app w)))
                     (snd (loop_body drv tk lv app w))).
      cbv zeta in IH. destruct IH as [IHd IHc].
      pose proof (loop_body_draws drv tk lv app w) as Hd.
      pose proof (loop_body_counters tk lv app w) as Hc. cbv zeta in Hc.
      split; [lia |].
      rewrite IHc, <- uint_add_l, Hc, uint_add_l. f_equal. lia.
Qed.

(** The loop is left once a tick brings a close event. *)
Lemma main_while_exits ticks lv app w :
  Exists (fun tk => In close_event (events tk)) ticks ->
  fst (fst (main_while drv ticks lv app w)) = true.
Proof.
  revert lv app w. induction ticks as [| tk ticks IH]; intros lv app w Hex.
  - inversion Hex.
  - rewrite main_while_cons. destruct (should_close w) eqn:Hw; [reflexivity |].
    inversion Hex as [? ? Hin | ? ? Hex']; subst.
    + pose proof (loop_body_close drv tk lv app w Hin) as Hc.
      destruct ticks; [rewrite main_while_nil | rewrite main_while_cons]; now rewrite Hc.
    + now apply IH.
Qed.

Lemma mainLoop_draw_count start ticks app w :
  draw_count (snd (mainLoop drv start ticks app w))
  = draw_count (snd (main_while drv ticks
       {| frame := 0; frames_total := 0; start_time := start; last_time := start |} app
       (snd (call (info "entering main loop" []) w)))).
Proof.
  unfold mainLoop, bind.
  destruct (fst (fst (main_while drv ticks _ app _))); reflexivity.
Qed.

(** The shape of the result when the loop is left. *)
Lemma mainLoop_exited start ticks app w :
  Exists (fun tk => In close_event (events tk)) ticks ->
  let lv0 := {| frame := 0; frames_total := 0; start_time := start; last_time := start |} in
  let r0 := main_while drv ticks lv0 app (snd (call (info "entering main loop" []) w)) in
  let lv1 := fst (snd (fst r0)) in
  let lv2 := set_frames_total (uint (frames_total lv1 + frame lv1)) lv1 in
  mainLoop drv start ticks app w
  = ((true, (lv2, snd (snd (fst r0)))),
     snd (call (info "left main loop\n%u frames rendered in %.1fs seconds == %.1ffps"
                     [arg_int (frames_total lv2);
                      arg_dbl (timeCur (snd (snd (fst r0))) - start_time lv2);
                      arg_quot (ddiv (inject_Z (frames_total lv2))
                                     (timeCur (snd (snd (fst r0))) - start_time lv2))])
               (snd r0))).
Proof.
  intros Hex. unfold mainLoop, bind. cbv zeta.
  rewrite main_while_exits by exact Hex. reflexivity.
Qed.

Lemma main_while_start_time ticks lv app w :
  start_time (fst (snd (fst (main_while drv ticks lv app w)))) = start_time lv.
Proof.
  revert lv app w. induction ticks as [| tk ticks IH]; intros lv app w.
  - now rewrite main_while_nil.
  - rewrite main_while_cons. destruct (should_close w); [reflexivity |].
    rewrite IH. unfold loop_body, bind, update_fps_estimate. cbn.
    destruct (Qle_bool 1 _); reflexivity.
Qed.

(** The total that is reported is the number of draws, modulo 2^32. *)
Lemma mainLoop_frames_total start ticks app w :
  Exists (fun tk => In close_event (events tk)) ticks ->
  frames_total (fst (snd (fst (mainLoop drv start ticks app w))))
  = uint (draw_count (snd (mainLoop drv start ticks app w)) - draw_count w).
Proof.
  intros Hex. rewrite mainLoop_draw_count.
  pose proof (mainLoop_exited start ticks app w Hex) as Hr. cbv zeta in Hr.
  rewrite Hr. cbn [fst snd frames_total set_frames_total].
  set (lv0 := {| frame := 0; frames_total := 0; start_time := start; last_time := start |}).
  set (w0 := snd (call (info "entering main loop" []) w)).
  assert (Hw0 : draw_count w0 = draw_count w) by reflexivity.
  destruct (main_while_counters ticks lv0 app w0) as [_ Hcount].
  rewrite Hcount, Hw0. f_equal.
Qed.

(** C7 (as amended): when a tick brings a close request the loop is left,
    and the last line logged reports the total of the frame counters, the
    time from the start of the loop to the last tick, and their quotient.
    The total is the number of draw calls modulo 2^32, the counters being
    32-bit unsigned integers; it is the number of draw calls when fewer than
    2^32 frames were drawn. *)
Theorem mainLoop_reports_total start ticks app w :
  Exists (fun tk => In close_event (events tk)) ticks ->
  let r := mainLoop drv start ticks app w in
  let lv' := fst (snd (fst r)) in
  let app' := snd (snd (fst r)) in
  let draws := draw_count (snd r) - draw_count w in
  fst (fst r) = true
  /\ frames_total lv' = uint draws
  /\ (draws < UINT_MODULUS -> frames_total lv' = draws)
  /\ hd_error (trace (snd r))
     = Some (info "left main loop\n%u frames rendered in %.1fs seconds == %.1ffps"
                  [arg_int (frames_total lv');
                   arg_dbl (timeCur app' - start);
                   arg_quot (ddiv (inject_Z (frames_total lv')) (timeCur app' - start))]).
Proof.
  intros Hex r lv' app' draws.
  pose proof (mainLoop_frames_total start ticks app w Hex) as Htotal.
  fold r in Htotal. fold lv' in Htotal. fold draws in Htotal.
  assert (Hpos : 0 <= draws).
  { unfold draws, r. rewrite mainLoop_draw_count.
    match goal with |- context [main_while drv ticks ?l app ?v] =>
      destruct (main_while_counters ticks l app v) as [Hm _];
      change (draw_count v) with (draw_count w) in Hm end.
    lia. }
  pose proof (mainLoop_exited start ticks app w Hex) as Hr. cbv zeta in Hr.
  repeat split.
  - unfold r. now rewrite Hr.
  - exact Htotal.
  - intros Hsmall. rewrite Htotal. apply Z.mod_small. lia.
  - unfold lv', app', r. rewrite Hr.
    cbn [fst snd call trace hd_error start_time set_frames_total].
    rewrite main_while_start_time. reflexivity.
Qed.

(** Ticks without events: each draws once and the window stays open. *)
Lemma main_while_idle ticks rest lv app w :
  Forall (fun tk => events tk = []) ticks ->
  should_close w = false ->
  exists lv' app' w',
    main_while drv (ticks ++ rest) lv app w = main_while drv rest lv' app' w'
    /\ draw_count w' = draw_count w + Z.of_nat (length ticks)
    /\ should_close w' = false.
Proof.
  intros Hidle. revert lv app w.
  induction Hidle as [| tk ticks Hev _ IH]; intros lv app w Hw.
  - exists lv, app, w. repeat split; [cbn; lia | exact Hw].
  - cbn [Datatypes.app]. rewrite main_while_cons, Hw.
    set (b := loop_body drv tk lv app w).
    assert (Hb : should_close (snd b) = false).
    { unfold b, loop_body, bind, update_fps_estimate. rewrite Hev. cbn.
      destruct (Qle_bool 1 _); rewrite (proj2 (GL_ERROR_DBG_rest _ _ _ _ _)); exact Hw. }
    destruct (IH (fst (fst b)) (snd (fst b)) (snd b) Hb) as (lv' & app' & w' & E & D & C).
    exists lv', app', w'. repeat split; [exact E | | exact C].
    rewrite D. unfold b. rewrite loop_body_draws. cbn [length]. lia.
Qed.

Lemma mainLoop_idle_draws start ticks t app w :
  Forall (fun tk => events tk = []) ticks ->
  should_close w = false ->
  draw_count (snd (mainLoop drv start (ticks ++ [closing_tick t]) app w)) - draw_count w
  = Z.of_nat (length ticks) + 1.
Proof.
  intros Hidle Hw. rewrite mainLoop_draw_count.
  set (lv0 := {| frame := 0; frames_total := 0; start_time := start; last_time := start |}).
  set (w0 := snd (call (info "entering main loop" []) w)).
  assert (Hw0 : draw_count w0 = draw_count w) by reflexivity.
  destruct (main_while_idle ticks [closing_tick t] lv0 app w0 Hidle Hw)
    as (lv' & app' & w' & E & D & C).
  rewrite E, main_while_cons, C, main_while_nil. cbn [snd].
  rewrite loop_body_draws, D, Hw0. lia.
Qed.

End Counters.

Lemma mainLoop_reports_total_witness :
  let r := mainLoop demo_driver 0 [idle_tick (1 # 2); closing_tick (3 # 2)]
                    demo_app demo_running in
  Exists (fun tk => In close_event (events tk)) [idle_tick (1 # 2); closing_tick (3 # 2)]
  /\ fst (fst r) = true.
Proof.
  assert (H : Exists (fun tk => In close_event (events tk))
                [idle_tick (1 # 2); closing_tick (3 # 2)]).
  { right. left. now left. }
  split; [exact H |].
  exact (proj1 (mainLoop_reports_total demo_driver 0 _ demo_app demo_running H)).
Defined.

(** The overall average is not the rolling one: two frames in 1.5 seconds,
    the second one 1.5 seconds after the start, are reported as 4/3 frames
    per second overall while the rolling estimate is 2/3. *)
Lemma overall_average_is_not_rolling :
  let r := mainLoop demo_driver 0 [idle_tick (1 # 2); closing_tick (3 # 2)]
                    demo_app demo_running in
  hd_error (trace (snd r))
  = Some (info "left main loop\n%u frames rendered in %.1fs seconds == %.1ffps"
               [arg_int 2; arg_dbl ((3 # 2) - 0); arg_quot (Fin (2 / ((3 # 2) - 0)))])
  /\ avg_fps (snd (snd (fst r))) = Fin (1 / ((3 # 2) - 0)).
Proof. vm_compute. split; reflexivity. Qed.

Lemma steady_ticks_idle start delta rate n :
  Forall (fun tk => events tk = []) (steady_ticks start delta rate n).
Proof. unfold steady_ticks. apply Forall_map, Forall_forall. reflexivity. Qed.

Lemma steady_ticks_length start delta rate n :
  length (steady_ticks start delta rate n) = n.
Proof. unfold steady_ticks. now rewrite length_map, length_seq. Qed.

(** C7 as the specification states it fails: a run of 2^32 frames, 60 of
    them per second, is reported as a run of 0 frames. *)
Lemma mainLoop_total_wraps_counterexample :
  let ticks := steady_ticks 0 0 60 (Z.to_nat (UINT_MODULUS - 1))
               ++ [closing_tick 71582789] in
  let r := mainLoop demo_driver 0 ticks demo_app demo_running in
  draw_count (snd r) - draw_count demo_running = 4294967296
  /\ frames_total (fst (snd (fst r))) = 0.
Proof.
  intros ticks r.
  assert (Hd : draw_count (snd r) - draw_count demo_running = 4294967296).
  { unfold r, ticks.
    rewrite mainLoop_idle_draws by (apply steady_ticks_idle || reflexivity).
    rewrite steady_ticks_length, Z2Nat.id by (unfold UINT_MODULUS; lia). reflexivity. }
  split; [exact Hd |].
  unfold r. rewrite mainLoop_frames_total.
  - fold r. rewrite Hd. reflexivity.
  - unfold ticks. apply Exists_app. right. left. now left.
Qed.

(** ** The rotation of the cube *)

Section Rotation.
Variable drv : Driver.

Lemma loop_body_model tk lv app w :
  let app' := snd (fst (loop_body drv tk lv app w)) in
  model (cube app') = rotate (model (cube app)) (half_pi * (now tk - timeCur app)) cube_axis
  /\ timeCur app' = now tk.
Proof.
  unfold loop_body, bind. cbn [ret fst snd].
  match goal with |- context [glfwPollEvents drv ?evs ?a ?v] =>
    pose proof (glfwPollEvents_scene drv evs a v) as Hs end.
  unfold scene_kept in Hs. destruct Hs as (_ & _ & Ht & _ & _ & _ & _ & Hc & _).
  cbv zeta. rewrite Hc, Ht. unfold update_fps_estimate. cbn.
  destruct (Qle_bool 1 _); split; reflexivity.
Qed.

(** C6: a frame replaces the model matrix by its rotation by
    [half_pi * timeDelta] about the axis (0.8, 0.6, 0.1), the delta being
    the time since the previous tick; so over any run of the loop the
    angles add up to [half_pi] times the time that has passed, however
    many frames were drawn.  (Exact arithmetic: the rounding of the doubles
    and the cast of the angle to float are not modelled.) *)
Theorem rotation_follows_time :
  (forall app w,
      model (cube (fst (displayFunc drv app w)))
      = rotate (model (cube app)) (half_pi * timeDelta app) cube_axis)
  /\ (forall tk lv app w,
      model (cube (snd (fst (loop_body drv tk lv app w))))
      = rotate (model (cube app)) (half_pi * (now tk - timeCur app)) cube_axis)
  /\ (forall ticks lv app w,
      let app' := snd (snd (fst (main_while drv ticks lv app w))) in
      rotation_angle (model (cube app'))
      == rotation_angle (model (cube app)) + half_pi * (timeCur app' - timeCur app))%Q.
Proof.
  split; [reflexivity |]. split; [intros; apply loop_body_model |].
  induction ticks as [| tk ticks IH]; intros lv app w.
  - rewrite main_while_nil. cbn. ring.
  - rewrite main_while_cons. destruct (should_close w); [cbn; ring |].
    specialize (IH (fst (fst (loop_body drv tk lv app w)))
                   (snd (fst (loop_body drv tk lv app w)))
                   (snd (loop_body drv tk lv app w))).
    cbv zeta in IH. cbv zeta. rewrite IH.
    destruct (loop_body_model tk lv app w) as [-> ->].
    cbn [rotation_angle]. ring.
Qed.

End Rotation.

(** ** The FPS estimate *)







(** The estimate of [n] frames in [delta + n / rate] seconds. *)
Lemma steady_estimate (n : Z) (delta rate e : Q) :
  (0 < rate)%Q -> (0 <= delta)%Q -> (delta < 1 / rate)%Q ->
  (e == delta + inject_Z n / rate)%Q -> (1 <= e)%Q ->
  (rate - 1 < inject_Z n / e /\ inject_Z n / e <= rate)%Q.
Proof.
  intros Hr Hd0 Hd1 He H1.
  assert (He0 : (0 < e)%Q) by lra.
  assert (Hrd : (rate * delta < 1)%Q).
  { apply (Qmult_lt_l _ _ rate Hr) in Hd1.
    assert (E : (rate * (1 / rate) == 1)%Q) by (field; lra).
    now rewrite E in Hd1. }
  assert (Hn : (inject_Z n == rate * e - rate * delta)%Q).
  { rewrite He. field. lra. }
  split.
  - apply Qlt_shift_div_l; [exact He0 |]. rewrite Hn. nra.
  - apply Qle_shift_div_r; [exact He0 |]. rewrite Hn. nra.
Qed.

Section Estimate.
Variable drv : Driver.

Lemma update_fps_estimate_refresh lv app w :
  (1 <= timeCur app - last_time lv)%Q ->
  let elapsed := (timeCur app - last_time lv)%Q in
  let r := update_fps_estimate lv app w in
  avg_frametime (snd (fst r)) = ddiv (1000 * elapsed) (inject_Z (frame lv))
  /\ avg_fps (snd (fst r)) = ddiv (inject_Z (frame lv)) elapsed
  /\ frame (fst (fst r)) = 0
  /\ frames_total (fst (fst r)) = uint (frames_total lv + frame lv)
  /\ last_time (fst (fst r)) = timeCur app.
Proof.
  intros H. unfold update_fps_estimate. rewrite (Qle_bool_true _ _ H).
  cbn. repeat split; reflexivity.
Qed.

Lemma update_fps_estimate_skip lv app w :
  (timeCur app - last_time lv < 1)%Q ->
  update_fps_estimate lv app w = ((lv, app), w).
Proof.
  intros H. unfold update_fps_estimate. now rewrite (Qle_bool_false _ _ H).
Qed.

(** Ticks before the first refresh: the frame counter counts them. *)
Lemma main_while_steady_prefix start delta rate m k rest lv app w :
  should_close w = false ->
  frame lv = Z.of_nat k ->
  last_time lv = start ->
  (Z.of_nat (k + m) < UINT_MODULUS) ->
  (forall i, (k <= i < k + m)%nat -> (delta + inject_Z (Z.of_nat i) / rate < 1)%Q) ->
  exists app' w',
    main_while drv (map (steady_tick start delta rate) (seq k m) ++ rest) lv app w
    = main_while drv rest (set_frame (Z.of_nat (k + m)) lv) app' w'
    /\ should_close w' = false.
Proof.
  revert k lv app w. induction m as [| m IH]; intros k lv app w Hw Hf Hl Hk Hlt.
  - exists app, w. split; [| exact Hw]. rewrite Nat.add_0_r, <- Hf. now destruct lv.
  - cbn [seq map Datatypes.app]. rewrite main_while_cons, Hw.
    set (b := loop_body drv (steady_tick start delta rate k) lv app w).
    assert (Hb : fst (fst b) = set_frame (Z.of_nat (S k)) lv
                 /\ should_close (snd b) = false).
    { unfold b, loop_body, bind. cbn [ret fst snd].
      rewrite update_fps_estimate_skip.
      - cbn [fst snd]. split;
          [| change (events (steady_tick start delta rate k)) with (@nil Event);
             cbn [glfwPollEvents ret snd];
             rewrite (proj2 (displayFunc_rest _ _ _)); exact Hw].
        rewrite Hf. unfold set_frame. f_equal. unfold uint.
        rewrite Z.mod_small by lia. lia.
      - cbn [timeCur set_timeCur steady_tick now]. rewrite Hl.
        specialize (Hlt k ltac:(lia)). lra. }
    destruct Hb as [Hb1 Hb2].
    destruct (IH (S k) (fst (fst b)) (snd (fst b)) (snd b)) as (app' & w' & E & C).
    + exact Hb2.
    + rewrite Hb1. reflexivity.
    + rewrite Hb1. exact Hl.
    + replace (S k + m)%nat with (k + S m)%nat by lia. exact Hk.
    + intros i Hi. apply Hlt. lia.
    + exists app', w'. split; [| exact C]. rewrite E, Hb1. f_equal.
      unfold set_frame. cbn. f_equal. lia.
Qed.

(** An iteration that refreshes the estimate. *)
Lemma loop_body_refresh tk lv app w :
  (1 <= now tk - last_time lv)%Q ->
  let elapsed := (now tk - last_time lv)%Q in
  let r := loop_body drv tk lv app w in
  avg_frametime (snd (fst r)) = ddiv (1000 * elapsed) (inject_Z (frame lv))
  /\ avg_fps (snd (fst r)) = ddiv (inject_Z (frame lv)) elapsed
  /\ frame (fst (fst r)) = 1
  /\ frames_total (fst (fst r)) = uint (frames_total lv + frame lv)
  /\ last_time (fst (fst r)) = now tk.
Proof.
  intros H. unfold loop_body, bind. cbn [ret fst snd].
  set (app2 := set_timeCur (now tk) (set_timeDelta _ app)).
  destruct (update_fps_estimate_refresh lv app2 w H) as (H1 & H2 & H3 & H4 & H5).
  cbv zeta in H1, H2, H3, H4, H5.
  match goal with |- context [glfwPollEvents drv ?evs ?a ?v] =>
    pose proof (glfwPollEvents_scene drv evs a v) as Hs end.
  unfold scene_kept in Hs. destruct Hs as (_ & _ & _ & _ & Hft & Hfps & _).
  cbv zeta. rewrite Hft, Hfps.
  cbn [avg_frametime avg_fps displayFunc fst snd set_cube set_view set_projection
       bind ret call frame frames_total last_time set_frame].
  rewrite H1, H2, H3, H4, H5. repeat split; reflexivity.
Qed.

(** C5: an iteration that comes at least one time unit after the last
    refresh sets the average frame time to [1000 * elapsed / frame] and the
    average rate to [frame / elapsed], the frame counter to zero and the
    baseline to the current time; at the end of that iteration the two
    averages stand, and the counter has counted the frame just drawn.
    Hence with ticks [1 / rate] apart, the first one less than a period
    after the start, the first estimate lies within one frame of the rate:
    [rate - 1 < fps <= rate].  (Exact arithmetic; fewer than 2^32 frames
    per refresh.) *)
Theorem fps_estimate_once_per_second :
  (forall lv app w,
      (1 <= timeCur app - last_time lv)%Q ->
      let elapsed := (timeCur app - last_time lv)%Q in
      let r := update_fps_estimate lv app w in
      avg_frametime (snd (fst r)) = ddiv (1000 * elapsed) (inject_Z (frame lv))
      /\ avg_fps (snd (fst r)) = ddiv (inject_Z (frame lv)) elapsed
      /\ frame (fst (fst r)) = 0
      /\ last_time (fst (fst r)) = timeCur app)
  /\ (forall tk lv app w,
      (1 <= now tk - last_time lv)%Q ->
      let elapsed := (now tk - last_time lv)%Q in
      let r := loop_body drv tk lv app w in
      avg_frametime (snd (fst r)) = ddiv (1000 * elapsed) (inject_Z (frame lv))
      /\ avg_fps (snd (fst r)) = ddiv (inject_Z (frame lv)) elapsed
      /\ frame (fst (fst r)) = 1
      /\ last_time (fst (fst r)) = now tk)
  /\ (forall start delta rate n app w,
      (0 < rate)%Q -> (0 <= delta)%Q -> (delta < 1 / rate)%Q ->
      Z.of_nat n < UINT_MODULUS ->
      ((0 < n)%nat -> (delta + inject_Z (Z.of_nat n - 1) / rate < 1)%Q) ->
      (1 <= delta + inject_Z (Z.of_nat n) / rate)%Q ->
      should_close w = false ->
      let lv := {| frame := 0; frames_total := 0; start_time := start; last_time := start |} in
      let r := main_while drv (steady_ticks start delta rate (S n)) lv app w in
      exists fps,
        avg_fps (snd (snd (fst r))) = Fin fps
        /\ (rate - 1 < fps /\ fps <= rate)%Q
        /\ frames_total (fst (snd (fst r))) = Z.of_nat n
        /\ frame (fst (snd (fst r))) = 1).
Proof.
  split; [| split].
  - intros lv app w H elapsed r.
    destruct (update_fps_estimate_refresh lv app w H) as (H1 & H2 & H3 & _ & H5).
    repeat split; assumption.
  - intros tk lv app w H elapsed r.
    destruct (loop_body_refresh tk lv app w H) as (H1 & H2 & H3 & _ & H5).
    repeat split; assumption.
  - intros start delta rate n app w Hr Hd0 Hd1 Hn Hbefore Hat Hw lv r.
    assert (Hlt : forall i, (0 <= i < 0 + n)%nat ->
                            (delta + inject_Z (Z.of_nat i) / rate < 1)%Q).
    { intros i Hi. specialize (Hbefore ltac:(lia)).
      eapply Qle_lt_trans; [| exact Hbefore].
      apply Qplus_le_r. unfold Qdiv. apply Qmult_le_compat_r.
      - rewrite <- Zle_Qle. lia.
      - apply Qlt_le_weak, Qinv_lt_0_compat, Hr. }
    destruct (main_while_steady_prefix start delta rate n 0
                [steady_tick start delta rate n] lv app w Hw eq_refl eq_refl Hn Hlt)
      as (app1 & w1 & E & C).
    assert (Hr0 : r = main_while drv [steady_tick start delta rate n]
                        (set_frame (Z.of_nat n) lv) app1 w1).
    { unfold r, steady_ticks. rewrite seq_S, map_app. exact E. }
    rewrite Hr0, main_while_cons, C, main_while_nil. cbn [fst snd].
    set (tk := steady_tick start delta rate n).
    set (lv1 := set_frame (Z.of_nat n) lv).
    assert (He : (now tk - last_time lv1 == delta + inject_Z (Z.of_nat n) / rate)%Q).
    { cbn. ring. }
    assert (H1 : (1 <= now tk - last_time lv1)%Q) by (rewrite He; exact Hat).
    destruct (loop_body_refresh tk lv1 app1 w1 H1) as (_ & H2 & H3 & H4 & _).
    cbv zeta in H2, H3, H4.
    exists (inject_Z (Z.of_nat n) / (now tk - last_time lv1))%Q.
    repeat split.
    + rewrite H2. apply ddiv_nonzero. lra.
    + eapply steady_estimate; eauto.
    + eapply steady_estimate; eauto.
    + rewrite H4. cbn. unfold uint. rewrite Z.add_0_l. apply Z.mod_small. lia.
    + exact H3.
Qed.

End Estimate.

Lemma fps_estimate_once_per_second_witness :
  let lv := {| frame := 0; frames_total := 0; start_time := 0; last_time := 0 |} in
  let r := main_while demo_driver (steady_ticks 0 (1 # 120) 60 61) lv demo_app demo_running in
  exists fps,
    avg_fps (snd (snd (fst r))) = Fin fps
    /\ (60 - 1 < fps /\ fps <= 60)%Q
    /\ frames_total (fst (snd (fst r))) = Z.of_nat 60
    /\ frame (fst (snd (fst r))) = 1.
Proof.
  refine (proj2 (proj2 (fps_estimate_once_per_second demo_driver))
            0%Q (1 # 120) 60%Q 60%nat demo_app demo_running _ _ _ _ _ _ _).
  - reflexivity.
  - discriminate.
  - reflexivity.
  - reflexivity.
  - intros _. reflexivity.
  - discriminate.
  - reflexivity.
Defined.

(** * Shader and program objects *)

Lemma same_objects_refl (w : World) : same_objects w w.
Proof. intros x. repeat split. Qed.

Lemma same_objects_trans (w1 w2 w3 : World) :
  same_objects w1 w2 -> same_objects w2 w3 -> same_objects w1 w3.
Proof.
  intros H1 H2 x. destruct (H1 x) as (A1 & B1 & C1 & D1).
  destruct (H2 x) as (A2 & B2 & C2 & D2). repeat split; congruence.
Qed.

Lemma inert_ret {A : Type} (x : A) : inert (ret x).
Proof. intros w. apply same_objects_refl. Qed.

Lemma inert_bind {A B : Type} (m : M A) (k : A -> M B) :
  inert m -> (forall x, inert (k x)) -> inert (bind m k).
Proof. intros Hm Hk w. unfold bind. eapply same_objects_trans; [apply Hm | apply Hk]. Qed.

Lemma count_call (f : Call -> bool) (c : Call) (w : World) :
  count f (snd (call c w)) = count f w + (if f c then 1 else 0).
Proof. unfold count. cbn. destruct (f c); cbn [length]; lia. Qed.

Lemma inert_call (c : Call) : is_object_call c = false -> inert (call c).
Proof.
  intros Hc w x. rewrite !count_call.
  destruct c; try discriminate; cbn; repeat split; lia.
Qed.

Lemma inert_GL_ERROR_DBG drv action file line :
  inert (GL_ERROR_DBG drv action file line).
Proof.
  intros w x. unfold count.
  repeat split; f_equal; f_equal; apply GL_ERROR_DBG_filter;
    intros c Hc; destruct c; (discriminate || reflexivity).
Qed.

Lemma inert_fresh_name : inert fresh_name.
Proof. intros w x. repeat split. Qed.

Lemma inert_set_should_close (b : bool) : inert (set_should_close b).
Proof. intros w x. repeat split. Qed.

Lemma inert_when (b : bool) (m : M unit) : inert m -> inert (when b m).
Proof. intros Hm. destruct b; [exact Hm | apply inert_ret]. Qed.

(** Decompose a computation into its calls. *)
Ltac inert_steps :=
  repeat first
    [ match goal with H : forall _, _ |- _ => simple apply H end
    | simple apply @inert_ret
    | simple apply inert_GL_ERROR_DBG
    | simple apply inert_fresh_name
    | simple apply inert_set_should_close
    | simple apply inert_call; reflexivity
    | simple apply inert_when
    | simple apply @inert_bind; [| intros ?]
    | match goal with
      | |- inert (let _ := _ in _) => cbv zeta
      | |- inert (if ?b then _ else _) => destruct b
      | |- inert (match ?o with Some _ => _ | None => _ end) => destruct o
      end ].

Lemma shaders_alive_same (w w' : World) (s : Z) :
  same_objects w w' -> shaders_alive s w' = shaders_alive s w.
Proof. intros H. unfold shaders_alive. destruct (H s) as (-> & -> & _). reflexivity. Qed.

Lemma programs_alive_same (w w' : World) (p : Z) :
  same_objects w w' -> programs_alive p w' = programs_alive p w.
Proof. intros H. unfold programs_alive. destruct (H p) as (_ & _ & -> & ->). reflexivity. Qed.

Lemma count_fresh_name (f : Call -> bool) (w : World) :
  count f (snd (fresh_name w)) = count f w.
Proof. reflexivity. Qed.

Lemma count_when (f : Call -> bool) (b : bool) (c : Call) (w : World) :
  count f (snd (when b (call c) w)) = count f w + (if b && f c then 1 else 0).
Proof. destruct b; cbn [when andb]; [apply count_call | cbn; lia]. Qed.

(** Settle an equation between counts of calls. *)
Ltac count_cases :=
  unfold shaders_alive, programs_alive;
  repeat (rewrite count_call || rewrite count_when || rewrite count_fresh_name);
  cbn [is_compile is_delete_shader is_link is_delete_program andb];
  rewrite ?andb_false_r;
  repeat match goal with |- context [?a =? ?b] => destruct (Z.eqb_spec a b) end;
  try lia.

Section Objects.
Variable drv : Driver.

(** What [shaderCreateAndCompile] leaves: the shader it returns, and no
    other; no program is touched. *)
Lemma shaderCreateAndCompile_alive type source w :
  let r := shaderCreateAndCompile drv type source w in
  (forall s, s <> 0 ->
     shaders_alive s (snd r) = shaders_alive s w + (if s =? fst r then 1 else 0))
  /\ (forall p, programs_alive p (snd r) = programs_alive p w).
Proof.
  unfold shaderCreateAndCompile, bind. cbn [fresh_name fst].
  destruct (drv_compile drv type source); cbn [fst snd ret]; split; intros x;
    try (intros Hx); count_cases.
Qed.

Lemma shaderCreateFromFileAndCompile_alive type filename w :
  let r := shaderCreateFromFileAndCompile drv type filename w in
  (forall s, s <> 0 ->
     shaders_alive s (snd r) = shaders_alive s w + (if s =? fst r then 1 else 0))
  /\ (forall p, programs_alive p (snd r) = programs_alive p w).
Proof.
  unfold shaderCreateFromFileAndCompile, bind.
  assert (Hnone : forall c v, is_object_call c = false ->
            (forall s, s <> 0 ->
               shaders_alive s (snd (call c v)) = shaders_alive s v + (if s =? 0 then 1 else 0))
            /\ (forall p, programs_alive p (snd (call c v)) = programs_alive p v)).
  { intros c v Hc. pose proof (inert_call c Hc v) as Hs. split.
    - intros s Hs0. rewrite (shaders_alive_same _ _ _ Hs).
      destruct (Z.eqb_spec s 0); [contradiction | lia].
    - intros p. apply (programs_alive_same _ _ _ Hs). }
  set (w1 := snd (call (info "loading shader file '%s'" [arg_str filename]) w)).
  assert (H1 : same_objects w w1) by (apply inert_call; reflexivity).
  assert (Hback : forall (r : Z * World),
            (forall s, s <> 0 ->
               shaders_alive s (snd r) = shaders_alive s w1 + (if s =? fst r then 1 else 0))
            /\ (forall p, programs_alive p (snd r) = programs_alive p w1) ->
            (forall s, s <> 0 ->
               shaders_alive s (snd r) = shaders_alive s w + (if s =? fst r then 1 else 0))
            /\ (forall p, programs_alive p (snd r) = programs_alive p w)).
  { intros r [Ha Hb]. split.
    - intros s Hs. rewrite Ha by exact Hs. now rewrite (shaders_alive_same _ _ _ H1).
    - intros p. rewrite Hb. apply (programs_alive_same _ _ _ H1). }
  clearbody w1.
  destruct (drv_fopen drv filename) as [source |].
  - destruct (drv_malloc drv filename).
    + apply Hback, shaderCreateAndCompile_alive.
    + apply Hback. unfold bind. cbn [ret fst snd]. apply Hnone. reflexivity.
  - apply Hback. unfold bind. cbn [ret fst snd]. apply Hnone. reflexivity.
Qed.

(** What [programCreate] leaves: the program it returns, and no other; no
    shader is touched. *)
Lemma programCreate_alive vs fs w :
  let r := programCreate drv vs fs w in
  (forall s, shaders_alive s (snd r) = shaders_alive s w)
  /\ (forall p, p <> 0 ->
        programs_alive p (snd r) = programs_alive p w + (if p =? fst r then 1 else 0))
  /\ fst r = (if drv_link drv vs fs then next_name w else 0).
Proof.
  unfold programCreate, bind. cbn [fresh_name fst].
  destruct (drv_link drv vs fs); cbn [ret fst snd]; repeat split;
    try intros x; try intros Hx; count_cases.
Qed.

Lemma programCreateFromFiles_alive vs fs w x :
  x <> 0 ->
  let r := programCreateFromFiles drv vs fs w in
  shaders_alive x (snd r) = shaders_alive x w
  /\ programs_alive x (snd r) = programs_alive x w + (if x =? fst r then 1 else 0).
Proof.
  intros Hx. unfold programCreateFromFiles, bind. cbn [ret fst snd].
  set (r1 := shaderCreateFromFileAndCompile drv GL_VERTEX_SHADER vs w).
  set (r2 := shaderCreateFromFileAndCompile drv GL_FRAGMENT_SHADER fs (snd r1)).
  set (r3 := programCreate drv (fst r1) (fst r2) (snd r2)).
  destruct (shaderCreateFromFileAndCompile_alive GL_VERTEX_SHADER vs w) as [S1 P1].
  destruct (shaderCreateFromFileAndCompile_alive GL_FRAGMENT_SHADER fs (snd r1)) as [S2 P2].
  destruct (programCreate_alive (fst r1) (fst r2) (snd r2)) as (S3 & P3 & _).
  fold r1 in S1, P1, S2, P2. fold r2 in S2, P2, S3, P3. fold r3 in S3, P3.
  specialize (S1 x Hx). specialize (S2 x Hx). specialize (S3 x).
  specialize (P1 x). specialize (P2 x). specialize (P3 x Hx).
  clearbody r1 r2 r3.
  unfold shaders_alive, programs_alive in *.
  repeat (rewrite count_call).
  cbn [is_compile is_delete_shader is_link is_delete_program].
  repeat match goal with |- context [?a =? ?b] => destruct (Z.eqb_spec a b) end;
    repeat match goal with H : context [?a =? ?b] |- _ => destruct (Z.eqb_spec a b) end;
    lia.
Qed.

(** X1: [programCreateFromFiles] deletes every shader object it has created,
    compiled or not, and leaves alive one program at most, the one it
    returns: a program that does not link is deleted. *)
Theorem programCreateFromFiles_leaves_result vs fs w x :
  x <> 0 ->
  let r := programCreateFromFiles drv vs fs w in
  shaders_alive x (snd r) = shaders_alive x w
  /\ programs_alive x (snd r) = programs_alive x w + (if x =? fst r then 1 else 0).
Proof. apply programCreateFromFiles_alive. Qed.

Lemma shaderCreateFromFileAndCompile_no_file type filename w :
  drv_fopen drv filename = None ->
  shaderCreateFromFileAndCompile drv type filename w
  = (0, snd (call (warn "Failed to open shader file '%s'" [arg_str filename])
              (snd (call (info "loading shader file '%s'" [arg_str filename]) w)))).
Proof. intros H. unfold shaderCreateFromFileAndCompile, bind. now rewrite H. Qed.

Lemma programCreate_links vs fs w p :
  count (is_link p) (snd (programCreate drv vs fs w))
  = count (is_link p) w + (if next_name w =? p then 1 else 0)
  /\ count (is_compile p) (snd (programCreate drv vs fs w)) = count (is_compile p) w.
Proof.
  unfold programCreate, bind. cbn [fresh_name fst].
  destruct (drv_link drv vs fs); cbn [ret fst snd]; split; count_cases.
Qed.

(** X2: a shader file that does not open does not stop the build.  When
    neither file opens, no shader is compiled, and still a program object
    is created and linked with nothing attached; the call returns that
    program if the driver links it, and 0 otherwise. *)
Theorem programCreateFromFiles_without_files vs fs w :
  drv_fopen drv vs = None ->
  drv_fopen drv fs = None ->
  let r := programCreateFromFiles drv vs fs w in
  fst r = (if drv_link drv 0 0 then next_name w else 0)
  /\ (forall s, count (is_compile s) (snd r) = count (is_compile s) w)
  /\ count (is_link (next_name w)) (snd r) = count (is_link (next_name w)) w + 1.
Proof.
  intros Hvs Hfs. unfold programCreateFromFiles, bind.
  rewrite (shaderCreateFromFileAndCompile_no_file _ vs w Hvs). cbn [fst snd].
  rewrite (shaderCreateFromFileAndCompile_no_file _ fs _ Hfs). cbn [fst snd ret].
  match goal with |- context [programCreate drv 0 0 ?v] => set (w2 := v) end.
  assert (Hn : next_name w2 = next_name w) by reflexivity.
  assert (Hc : forall f, count f w2
                 = count f w + (if f (info "loading shader file '%s'" [arg_str vs]) then 1 else 0)
                   + (if f (warn "Failed to open shader file '%s'" [arg_str vs]) then 1 else 0)
                   + (if f (info "loading shader file '%s'" [arg_str fs]) then 1 else 0)
                   + (if f (warn "Failed to open shader file '%s'" [arg_str fs]) then 1 else 0)).
  { intros f. unfold w2. now rewrite !count_call. }
  destruct (programCreate_alive 0 0 w2) as (_ & _ & Hres).
  clearbody w2. cbv zeta in Hres. rewrite Hres, Hn. split; [reflexivity |]. split.
  - intros s. rewrite !count_call, (proj2 (programCreate_links 0 0 w2 s)), Hc. cbn. lia.
  - rewrite !count_call, (proj1 (programCreate_links 0 0 w2 _)), Hc, Hn, Z.eqb_refl.
    cbn. lia.
Qed.

(** [initShaders] hands the ownership on: the program it leaves in the
    structure is the one program alive. *)
Lemma initShaders_owns vs fs app w0 w :
  owns_program app w0 w ->
  owns_program (snd (fst (initShaders drv vs fs app w))) w0 (snd (initShaders drv vs fs app w)).
Proof.
  intros Hown x Hx. destruct (Hown x Hx) as [Hs Hp].
  unfold initShaders, bind.
  set (w1 := snd (destroyShaders app w)).
  assert (H1 : shaders_alive x w1 = shaders_alive x w0
               /\ programs_alive x w1 = programs_alive x w0).
  { unfold w1, destroyShaders.
    destruct (Z.eqb_spec (program app) 0) as [E | E]; cbn [negb].
    - rewrite E in Hp. destruct (Z.eqb_spec x 0); [contradiction |].
      cbn [ret snd]. split; lia.
    - unfold bind. cbn [ret fst snd]. split; [rewrite <- Hs | rewrite <- (Z.add_0_r (programs_alive x w0))];
        revert Hp; count_cases. }
  destruct H1 as [Hs1 Hp1].
  destruct (programCreateFromFiles_alive vs fs w1 x Hx) as [Hs2 Hp2].
  set (r := programCreateFromFiles drv vs fs w1) in *. clearbody r w1.
  change (program (set_program (fst r) _)) with (fst r).
  destruct (fst r =? 0) eqn:E0.
  - cbn [ret fst snd program set_program]. split; lia.
  - cbv zeta. unfold bind. cbn [ret fst snd].
    cbn [program set_locCameraPos set_locTime set_locModelView set_locProjection set_program].
    unfold shaders_alive, programs_alive in *. repeat rewrite count_call.
    cbn [is_compile is_delete_shader is_link is_delete_program].
    destruct (Z.eqb_spec x (fst r)); split; lia.
Qed.

End Objects.

Lemma programCreateFromFiles_leaves_result_witness :
  7 <> 0
  /\ (let r := programCreateFromFiles demo_driver "shaders/cut.vs.glsl" "shaders/cut.fs.glsl"
                                      demo_running in
      shaders_alive 7 (snd r) = shaders_alive 7 demo_running
      /\ programs_alive 7 (snd r)
         = programs_alive 7 demo_running + (if 7 =? fst r then 1 else 0)).
Proof.
  refine (conj _ (programCreateFromFiles_leaves_result demo_driver
                    "shaders/cut.vs.glsl" "shaders/cut.fs.glsl" demo_running 7 _));
    discriminate.
Defined.

Lemma programCreateFromFiles_without_files_witness :
  drv_fopen demo_driver "shaders/yourshader.vs.glsl" = None
  /\ fst (programCreateFromFiles demo_driver "shaders/yourshader.vs.glsl"
            "shaders/yourshader.fs.glsl" demo_running)
     = (if drv_link demo_driver 0 0 then next_name demo_running else 0).
Proof.
  split; [reflexivity |].
  refine (proj1 (programCreateFromFiles_without_files demo_driver
                   "shaders/yourshader.vs.glsl" "shaders/yourshader.fs.glsl"
                   demo_running _ _)); reflexivity.
Defined.

(** * The whole program *)

Lemma main_eq drv t_init start ticks app w :
  main drv t_init start ticks app w
  = let r := initBaseApp drv 800 600 APP_TITLE t_init app w in
    if fst (fst r) then
      let r2 := initShaders drv "shaders/raymarch.vs.glsl" "shaders/raymarch.fs.glsl"
                            (snd (fst r)) (snd r) in
      if fst (fst r2) then
        let r3 := mainLoop drv start ticks (snd (fst r2)) (snd r2) in
        destroy (snd (snd (fst r3))) (snd r3)
      else
        destroy (snd (fst r2)) (snd (call (warn "something wrong with our shaders..." []) (snd r2)))
    else destroy (snd (fst r)) (snd r).
Proof.
  unfold main, bind. cbv zeta.
  destruct (fst (fst (initBaseApp drv 800 600 APP_TITLE t_init app w))); [| reflexivity].
  destruct (fst (fst (initShaders drv "shaders/raymarch.vs.glsl" "shaders/raymarch.fs.glsl"
                        _ _))); reflexivity.
Qed.

(** [clear_keys] writes the two key arrays only. *)
Lemma clear_keys_other (app : BaseApplication) :
  exists pk rk, clear_keys app = set_pressedKeys pk (set_releasedKeys rk app).
Proof.
  unfold clear_keys. generalize (seq 0 (Z.to_nat (GLFW_KEY_LAST + 1))). intros idxs.
  revert app. induction idxs as [| i idxs IH]; intros app.
  - exists (pressedKeys app), (releasedKeys app). now destruct app.
  - cbn [foldl]. destruct (IH (clear_key app i)) as (pk & rk & ->).
    exists pk, rk. reflexivity.
Qed.

Lemma Cube_initBasic_names drv (c : Cube) (w : World) :
  let r := Cube_initBasic drv c w in
  vao (fst r) = next_name w /\ vbo0 (fst r) = next_name w + 1
  /\ vbo1 (fst r) = next_name w + 2 /\ model (fst r) = mat4_id
  /\ next_name (snd r) = next_name w + 3.
Proof.
  unfold Cube_initBasic, bind. cbn.
  rewrite (proj1 (GL_ERROR_DBG_rest _ _ _ _ _)). cbn. repeat split; lia.
Qed.

Section Init.
Variable drv : Driver.

Lemma initBaseApp_facts w h title t app wd :
  let r := initBaseApp drv w h title t app wd in
  let app' := snd (fst r) in
  fst (fst r)
  = drv_glfwInit drv && negb (drv_glfwCreateWindow drv =? 0) && drv_gladLoadGL drv
  /\ (flags app' = 1 /\ program app' = 0 /\ width app' = w /\ height app' = h
      /\ avg_frametime app' = Fin (-1) /\ avg_fps app' = Fin (-1))
  /\ win app' = (if drv_glfwInit drv then drv_glfwCreateWindow drv else 0)
  /\ (fst (fst r) = false ->
      vao (cube app') = 0 /\ vbo0 (cube app') = 0 /\ vbo1 (cube app') = 0
      /\ next_name (snd r) = next_name wd)
  /\ (fst (fst r) = true ->
      timeCur app' = t /\ model (cube app') = mat4_id
      /\ vao (cube app') = next_name wd /\ vbo0 (cube app') = next_name wd + 1
      /\ vbo1 (cube app') = next_name wd + 2).
Proof.
  unfold initBaseApp. cbv zeta.
  destruct (clear_keys_other
              (set_avg_fps (Fin (-1)) (set_avg_frametime (Fin (-1))
                 (set_flags 1 (set_height h (set_width w (set_win 0 app)))))))
    as (pk & rk & E).
  rewrite E. clear E.
  destruct (drv_glfwInit drv); cbn [negb andb].
  2: { unfold bind. cbn. repeat split; try reflexivity; discriminate. }
  unfold bind at 1. cbn [call fst snd]. unfold bind at 1. cbn [call fst snd].
  unfold bind at 1. cbn [call fst snd].
  change (win (set_win (drv_glfwCreateWindow drv) _)) with (drv_glfwCreateWindow drv).
  destruct (drv_glfwCreateWindow drv =? 0); cbn [negb andb].
  { unfold bind. cbn. repeat split; try reflexivity; discriminate. }
  unfold bind at 1. cbn [call fst snd]. unfold bind at 1. cbn [call fst snd].
  unfold bind at 1. cbn [call fst snd]. unfold bind at 1. cbn [call fst snd].
  destruct (drv_gladLoadGL drv); cbn [negb andb].
  2: { unfold bind. cbn. repeat split; try reflexivity; discriminate. }
  split; [reflexivity |]. split; [repeat split; reflexivity |].
  split; [reflexivity |]. split.
  - intros H. exfalso. revert H. unfold bind. cbn [ret fst snd]. discriminate.
  - intros _. unfold bind. cbn [ret fst snd timeCur set_timeCur cube set_cube].
    match goal with |- context [Cube_initBasic drv ?c ?v] =>
      destruct (Cube_initBasic_names drv c v) as (Ha & H0 & H1 & Hm & _);
      change (next_name v) with (next_name wd) in Ha, H0, H1 end.
    cbv zeta in Ha, H0, H1, Hm. repeat split; assumption.
Qed.

End Init.

(** Decompose a computation into its calls, given what is known of the
    computations it runs. *)
Ltac inert_with_facts :=
  repeat first
    [ assumption
    | match goal with H : forall _, _ |- _ => simple apply H end
    | simple apply @inert_ret
    | simple apply inert_GL_ERROR_DBG
    | simple apply inert_fresh_name
    | simple apply inert_set_should_close
    | simple apply inert_call; reflexivity
    | simple apply inert_when
    | simple apply @inert_bind; [| intros ?]
    | match goal with
      | |- inert (let _ := _ in _) => cbv zeta
      | |- inert (if ?b then _ else _) => destruct b
      | |- inert (match ?o with Some _ => _ | None => _ end) => destruct o
      end ].

Lemma inert_Cube_destroy c : inert (Cube_destroy c).
Proof. unfold Cube_destroy. inert_with_facts. Qed.

Lemma inert_Cube_initBasic drv c : inert (Cube_initBasic drv c).
Proof. unfold Cube_initBasic. inert_with_facts. Qed.

Lemma inert_displayFunc drv app : inert (displayFunc drv app).
Proof. unfold displayFunc. inert_with_facts. Qed.

Lemma inert_update_fps_estimate lv app : inert (update_fps_estimate lv app).
Proof. unfold update_fps_estimate. inert_with_facts. Qed.

Lemma owns_program_step app app' w0 w w' :
  owns_program app w0 w -> same_objects w w' -> program app' = program app ->
  owns_program app' w0 w'.
Proof.
  intros Hown Hsame Hp x Hx. destruct (Hown x Hx) as [Hs Ha].
  rewrite (shaders_alive_same _ _ _ Hsame), (programs_alive_same _ _ _ Hsame), Hp.
  now split.
Qed.

Section Whole.
Variable drv : Driver.

Lemma inert_initBaseApp w h title t app : inert (initBaseApp drv w h title t app).
Proof.
  unfold initBaseApp. cbv zeta.
  destruct (clear_keys_other
              (set_avg_fps (Fin (-1)) (set_avg_frametime (Fin (-1))
                 (set_flags 1 (set_height h (set_width w (set_win 0 app)))))))
    as (pk & rk & ->).
  assert (Hgl : inert initGLState) by (unfold initGLState; inert_with_facts).
  pose proof (inert_Cube_initBasic drv).
  inert_with_facts.
Qed.

Lemma handle_key_owns key app w0 w :
  owns_program app w0 w ->
  owns_program (fst (handle_key drv key app w)) w0 (snd (handle_key drv key app w)).
Proof.
  intros Hown. unfold handle_key.
  destruct ((CHAR_0 <=? key) && (key <=? CHAR_9)).
  - cbv zeta. unfold bind. cbn [ret fst snd]. now apply initShaders_owns.
  - destruct (key =? GLFW_KEY_ESCAPE).
    + eapply owns_program_step; [exact Hown | | reflexivity].
      unfold bind. cbn [ret fst snd]. intros x. repeat split.
    + exact Hown.
Qed.

Lemma dispatch_owns app e w0 w :
  owns_program app w0 w ->
  owns_program (fst (dispatch drv app e w)) w0 (snd (dispatch drv app e w)).
Proof.
  intros Hown. destruct e as [k sc a m | wd ht |]; cbn [dispatch].
  - unfold callback_Keyboard.
    destruct ((k <? 0) || (k >? GLFW_KEY_LAST)).
    + eapply owns_program_step; [exact Hown | | reflexivity].
      unfold bind. cbn [ret fst snd]. apply inert_call. reflexivity.
    + destruct (a =? GLFW_RELEASE).
      * eapply owns_program_step; [exact Hown | apply same_objects_refl | reflexivity].
      * unfold bind. cbn [ret fst snd].
        destruct (negb (key_down app k)).
        -- eapply owns_program_step;
             [apply handle_key_owns, Hown | apply same_objects_refl | reflexivity].
        -- eapply owns_program_step; [exact Hown | apply same_objects_refl | reflexivity].
  - eapply owns_program_step; [exact Hown | | reflexivity].
    unfold callback_Resize, bind. cbn [ret fst snd]. apply inert_call. reflexivity.
  - eapply owns_program_step; [exact Hown | | reflexivity].
    unfold bind. cbn [ret fst snd]. intros x. repeat split.
Qed.

Lemma glfwPollEvents_owns evs app w0 w :
  owns_program app w0 w ->
  owns_program (fst (glfwPollEvents drv evs app w)) w0 (snd (glfwPollEvents drv evs app w)).
Proof.
  revert app w. induction evs as [| e evs IH]; intros app w Hown; [exact Hown |].
  rewrite glfwPollEvents_cons. apply IH, dispatch_owns, Hown.
Qed.

Lemma loop_body_owns tk lv app w0 w :
  owns_program app w0 w ->
  owns_program (snd (fst (loop_body drv tk lv app w))) w0 (snd (loop_body drv tk lv app w)).
Proof.
  intros Hown. unfold loop_body, bind. cbn [ret fst snd].
  apply glfwPollEvents_owns.
  eapply owns_program_step; [| apply inert_displayFunc | reflexivity].
  eapply owns_program_step; [exact Hown | apply inert_update_fps_estimate |].
  unfold update_fps_estimate. cbn. destruct (Qle_bool 1 _); reflexivity.
Qed.

Lemma loop_body_flags tk lv app w :
  flags (snd (fst (loop_body drv tk lv app w))) = flags app.
Proof.
  unfold loop_body, bind. cbn [ret fst snd].
  match goal with |- context [glfwPollEvents drv ?evs ?a ?v] =>
    pose proof (glfwPollEvents_scene drv evs a v) as Hs end.
  unfold scene_kept in Hs. destruct Hs as (_ & -> & _).
  unfold update_fps_estimate. cbn. destruct (Qle_bool 1 _); reflexivity.
Qed.

Lemma main_while_owns ticks lv app w0 w :
  owns_program app w0 w ->
  let r := main_while drv ticks lv app w in
  owns_program (snd (snd (fst r))) w0 (snd r)
  /\ flags (snd (snd (fst r))) = flags app.
Proof.
  revert lv app w. induction ticks as [| tk ticks IH]; intros lv app w Hown.
  - rewrite main_while_nil. now split.
  - rewrite main_while_cons. destruct (should_close w); [now split |].
    destruct (IH (fst (fst (loop_body drv tk lv app w)))
                 (snd (fst (loop_body drv tk lv app w)))
                 (snd (loop_body drv tk lv app w))
                 (loop_body_owns tk lv app w0 w Hown)) as [H1 H2].
    split; [exact H1 |]. cbv zeta in H2. rewrite H2. apply loop_body_flags.
Qed.

Lemma mainLoop_owns start ticks app w0 w :
  owns_program app w0 w ->
  let r := mainLoop drv start ticks app w in
  owns_program (snd (snd (fst r))) w0 (snd r)
  /\ flags (snd (snd (fst r))) = flags app.
Proof.
  intros Hown. unfold mainLoop, bind. cbv zeta.
  set (lv0 := {| frame := 0; frames_total := 0; start_time := start; last_time := start |}).
  set (w1 := snd (call (info "entering main loop" []) w)).
  assert (Hown1 : owns_program app w0 w1).
  { eapply owns_program_step; [exact Hown | apply inert_call; reflexivity | reflexivity]. }
  destruct (main_while_owns ticks lv0 app w0 w1 Hown1) as [H1 H2]. cbv zeta in H1, H2.
  destruct (fst (fst (main_while drv ticks lv0 app w1))); cbn [ret fst snd].
  - split; [| exact H2].
    eapply owns_program_step; [exact H1 | apply inert_call; reflexivity | reflexivity].
  - now split.
Qed.

Lemma destroy_disowns app w0 w x :
  flags app <> 0 -> owns_program app w0 w -> x <> 0 ->
  shaders_alive x (snd (destroy app w)) = shaders_alive x w0
  /\ programs_alive x (snd (destroy app w)) = programs_alive x w0.
Proof.
  intros Hf Hown Hx. destruct (Hown x Hx) as [Hs Hp].
  unfold destroy. apply Z.eqb_neq in Hf. rewrite Hf. cbn [negb].
  unfold bind. cbn [ret fst snd].
  set (w1 := snd (Cube_destroy (cube app) w)).
  assert (H1 : same_objects w w1) by apply inert_Cube_destroy.
  rewrite <- (shaders_alive_same _ _ _ H1) in Hs.
  rewrite <- (programs_alive_same _ _ _ H1) in Hp. clearbody w1.
  unfold destroyShaders. cbn [program set_cube win].
  destruct (Z.eqb_spec (program app) 0) as [E | E]; cbn [negb ret fst snd].
  - rewrite E in Hp. destruct (Z.eqb_spec x 0); [contradiction |].
    rewrite <- Hs, <- (Z.add_0_r (programs_alive x w0)), <- Hp.
    split; count_cases.
  - unfold bind. cbn [ret fst snd]. rewrite <- Hs.
    split; [count_cases |]. revert Hp. count_cases.
Qed.

Lemma destroy_last_call app w :
  flags app <> 0 -> hd_error (trace (snd (destroy app w))) = Some glfwTerminate.
Proof.
  intros Hf. unfold destroy. apply Z.eqb_neq in Hf. rewrite Hf. reflexivity.
Qed.

End Whole.

Section Main.
Variable drv : Driver.

Lemma quiet_initBaseApp w h title t app : quiet (initBaseApp drv w h title t app).
Proof.
  unfold initBaseApp. cbv zeta.
  destruct (clear_keys_other
              (set_avg_fps (Fin (-1)) (set_avg_frametime (Fin (-1))
                 (set_flags 1 (set_height h (set_width w (set_win 0 app)))))))
    as (pk & rk & ->).
  unfold initGLState, Cube_initBasic. quiet_steps.
Qed.

Lemma quiet_destroy app : quiet (destroy app).
Proof. unfold destroy, Cube_destroy, destroyShaders. quiet_steps. Qed.

(** [main] ends in [destroy], on a structure whose flags are set and which
    owns the one program alive. *)
Lemma main_ends_in_destroy t_init start ticks app w :
  exists a v,
    main drv t_init start ticks app w = destroy a v
    /\ flags a = 1
    /\ owns_program a w v.
Proof.
  rewrite main_eq. cbv zeta.
  destruct (initBaseApp_facts drv 800 600 APP_TITLE t_init app w)
    as (_ & (Hf & Hp & _) & _).
  cbv zeta in Hf, Hp.
  set (r := initBaseApp drv 800 600 APP_TITLE t_init app w) in *.
  assert (Hown : owns_program (snd (fst r)) w (snd r)).
  { intros x Hx. pose proof (inert_initBaseApp drv 800 600 APP_TITLE t_init app w) as Hs.
    fold r in Hs.
    rewrite (shaders_alive_same _ _ _ Hs), (programs_alive_same _ _ _ Hs), Hp.
    destruct (Z.eqb_spec x 0); [contradiction | split; lia]. }
  clearbody r.
  destruct (fst (fst r)).
  2: { exists (snd (fst r)), (snd r). split; [reflexivity | split; [exact Hf | exact Hown]]. }
  pose proof (initShaders_owns drv "shaders/raymarch.vs.glsl" "shaders/raymarch.fs.glsl"
                _ _ _ Hown) as Hown2.
  assert (Hf2 : flags (snd (fst (initShaders drv "shaders/raymarch.vs.glsl"
                         "shaders/raymarch.fs.glsl" (snd (fst r)) (snd r)))) = 1).
  { destruct (initShaders_app drv "shaders/raymarch.vs.glsl" "shaders/raymarch.fs.glsl"
                (snd (fst r)) (snd r)) as (p & lp & lm & lt & lc & ->).
    exact Hf. }
  set (r2 := initShaders drv "shaders/raymarch.vs.glsl" "shaders/raymarch.fs.glsl"
                         (snd (fst r)) (snd r)) in *.
  clearbody r2.
  destruct (fst (fst r2)).
  - destruct (mainLoop_owns drv start ticks _ _ _ Hown2) as [H1 H2].
    cbv zeta in H1, H2.
    eexists _, _. split; [reflexivity |]. split; [now rewrite H2 | exact H1].
  - eexists _, _. split; [reflexivity |]. split; [exact Hf2 |].
    eapply owns_program_step; [exact Hown2 | apply inert_call; reflexivity | reflexivity].
Qed.

(** X3: whatever the driver answers, whatever the user does and however
    the run ends, [main] leaves no shader object and no program object
    alive: each one created during the run has been deleted as often as
    it was created. *)
Theorem main_leaves_no_object_alive t_init start ticks app w x :
  x <> 0 ->
  let r := main drv t_init start ticks app w in
  shaders_alive x (snd r) = shaders_alive x w
  /\ programs_alive x (snd r) = programs_alive x w.
Proof.
  intros Hx.
  destruct (main_ends_in_destroy t_init start ticks app w) as (a & v & -> & Hf & Hown).
  apply destroy_disowns; [rewrite Hf; discriminate | exact Hown | exact Hx].
Qed.

(** X4: after a start that succeeded, so that the entry points of the GL
    are loaded, [main] ends by terminating GLFW whatever happened in
    between, and the structure it leaves holds no GL object: the program,
    the vertex array and the two buffers are zero.  The flags stay set. *)
Theorem main_ends_clean t_init start ticks app w :
  fst (fst (initBaseApp drv 800 600 APP_TITLE t_init app w)) = true ->
  let r := main drv t_init start ticks app w in
  hd_error (trace (snd r)) = Some glfwTerminate
  /\ program (fst r) = 0
  /\ vao (cube (fst r)) = 0 /\ vbo0 (cube (fst r)) = 0 /\ vbo1 (cube (fst r)) = 0
  /\ flags (fst r) = 1.
Proof.
  intros _.
  destruct (main_ends_in_destroy t_init start ticks app w) as (a & v & -> & Hf & _).
  assert (Hf0 : flags a <> 0) by (rewrite Hf; discriminate).
  destruct (destroy_leaves a v Hf0) as (E1 & _ & E3 & E4 & E5 & E6).
  cbv zeta in E1, E3, E4, E5, E6. cbv zeta.
  split; [now apply destroy_last_call |]. repeat split; congruence.
Qed.

(** X5: frames are drawn in the main loop only: a run draws what its main
    loop draws, and nothing when the start or the first build of the
    shaders fails. *)
Theorem main_draws_in_loop_only t_init start ticks app w :
  let r := initBaseApp drv 800 600 APP_TITLE t_init app w in
  let r2 := initShaders drv "shaders/raymarch.vs.glsl" "shaders/raymarch.fs.glsl"
                        (snd (fst r)) (snd r) in
  draw_count (snd (main drv t_init start ticks app w)) - draw_count w
  = if fst (fst r) && fst (fst r2)
    then draw_count (snd (mainLoop drv start ticks (snd (fst r2)) (snd r2)))
         - draw_count (snd r2)
    else 0.
Proof.
  rewrite main_eq. cbv zeta.
  pose proof (proj1 (quiet_initBaseApp 800 600 APP_TITLE t_init app w)) as H1.
  set (r := initBaseApp drv 800 600 APP_TITLE t_init app w) in *. clearbody r.
  destruct (fst (fst r)); cbn [andb].
  2: { rewrite (proj1 (quiet_destroy _ _)). lia. }
  pose proof (proj1 (quiet_initShaders drv "shaders/raymarch.vs.glsl"
                       "shaders/raymarch.fs.glsl" (snd (fst r)) (snd r))) as H2.
  set (r2 := initShaders drv "shaders/raymarch.vs.glsl" "shaders/raymarch.fs.glsl"
                         (snd (fst r)) (snd r)) in *. clearbody r2.
  destruct (fst (fst r2)).
  - rewrite (proj1 (quiet_destroy _ _)). lia.
  - rewrite (proj1 (quiet_destroy _ _)).
    rewrite (proj1 (quiet_call (warn "something wrong with our shaders..." []) eq_refl _)).
    lia.
Qed.

(** Each iteration of the loop draws one frame. *)
Lemma main_while_draws ticks lv app w :
  let r := main_while drv ticks lv app w in
  draw_count (snd r) - draw_count w <= Z.of_nat (length ticks)
  /\ (fst (fst r) = false -> draw_count (snd r) - draw_count w = Z.of_nat (length ticks)).
Proof.
  revert lv app w. induction ticks as [| tk ticks IH]; intros lv app w.
  - rewrite main_while_nil. cbn. split; lia.
  - rewrite main_while_cons. destruct (should_close w).
    + cbn [fst snd length]. split; [lia | discriminate].
    + destruct (IH (fst (fst (loop_body drv tk lv app w)))
                   (snd (fst (loop_body drv tk lv app w)))
                   (snd (loop_body drv tk lv app w))) as [H1 H2].
      pose proof (loop_body_draws drv tk lv app w) as Hd.
      cbn [length]. split; [lia |]. intros Hne. specialize (H2 Hne). lia.
Qed.

(** X6: the main loop draws one frame for each tick it takes, so never
    more frames than there are ticks; and when it is not left (no close
    request came), it has drawn one frame for every tick. *)
Theorem mainLoop_draws_one_frame_per_tick start ticks app w :
  let r := mainLoop drv start ticks app w in
  0 <= draw_count (snd r) - draw_count w <= Z.of_nat (length ticks)
  /\ (fst (fst r) = false -> draw_count (snd r) - draw_count w = Z.of_nat (length ticks)).
Proof.
  cbv zeta. rewrite mainLoop_draw_count.
  set (lv0 := {| frame := 0; frames_total := 0; start_time := start; last_time := start |}).
  set (w0 := snd (call (info "entering main loop" []) w)).
  assert (Hw0 : draw_count w0 = draw_count w) by reflexivity.
  destruct (main_while_draws ticks lv0 app w0) as [H1 H2].
  destruct (main_while_counters drv ticks lv0 app w0) as [H3 _].
  cbv zeta in H1, H2, H3. rewrite <- Hw0. split; [lia |].
  intros Hne. apply H2.
  unfold mainLoop, bind in Hne. fold lv0 in Hne. fold w0 in Hne.
  destruct (fst (fst (main_while drv ticks lv0 app w0))); [discriminate | reflexivity].
Qed.

End Main.

Lemma main_ends_clean_witness :
  fst (fst (initBaseApp demo_driver 800 600 APP_TITLE 0 demo_garbage demo_world)) = true
  /\ hd_error (trace (snd (main demo_driver 0 0 [closing_tick (1 # 60)]
                                demo_garbage demo_world)))
     = Some glfwTerminate.
Proof.
  assert (H : fst (fst (initBaseApp demo_driver 800 600 APP_TITLE 0 demo_garbage
                          demo_world)) = true) by (vm_compute; reflexivity).
  split; [exact H |].
  exact (proj1 (main_ends_clean demo_driver 0 0 [closing_tick (1 # 60)]
                  demo_garbage demo_world H)).
Defined.

Lemma mainLoop_draws_one_frame_per_tick_witness :
  let r := mainLoop demo_driver 0 [idle_tick (1 # 60); idle_tick (2 # 60)]
                    demo_app demo_running in
  fst (fst r) = false
  /\ draw_count (snd r) - draw_count demo_running = 2.
Proof.
  intros r.
  assert (H : fst (fst r) = false) by (vm_compute; reflexivity).
  split; [exact H |].
  exact (proj2 (mainLoop_draws_one_frame_per_tick demo_driver 0
                  [idle_tick (1 # 60); idle_tick (2 # 60)] demo_app demo_running) H).
Defined.


Lemma main_leaves_no_object_alive_witness :
  6 <> 0
  /\ (let r := main demo_driver 0 0 [idle_tick (1 # 2); closing_tick (3 # 2)]
                    demo_garbage demo_world in
      shaders_alive 6 (snd r) = shaders_alive 6 demo_world
      /\ programs_alive 6 (snd r) = programs_alive 6 demo_world).
Proof.
  refine (conj _ (main_leaves_no_object_alive demo_driver 0 0
                    [idle_tick (1 # 2); closing_tick (3 # 2)] demo_garbage demo_world 6 _));
    discriminate.
Defined.

(** * Starting and cleaning up *)

Section Start.
Variable drv : Driver.

Lemma initBaseApp_keys w h title t app wd :
  let app' := snd (fst (initBaseApp drv w h title t app wd)) in
  pressedKeys app' = foldl (fun l i => <[i := false]> l) (pressedKeys app)
                           (seq 0 (Z.to_nat (GLFW_KEY_LAST + 1)))
  /\ releasedKeys app' = foldl (fun l i => <[i := false]> l) (releasedKeys app)
                               (seq 0 (Z.to_nat (GLFW_KEY_LAST + 1))).
Proof.
  cbv zeta.
  rewrite <- (proj1 (clear_keys_arrays _
                (set_avg_fps (Fin (-1)) (set_avg_frametime (Fin (-1))
                   (set_flags 1 (set_height h (set_width w (set_win 0 app)))))))).
  rewrite <- (proj2 (clear_keys_arrays _
                (set_avg_fps (Fin (-1)) (set_avg_frametime (Fin (-1))
                   (set_flags 1 (set_height h (set_width w (set_win 0 app)))))))).
  unfold initBaseApp. cbv zeta.
  fold (clear_keys (set_avg_fps (Fin (-1)) (set_avg_frametime (Fin (-1))
                      (set_flags 1 (set_height h (set_width w (set_win 0 app))))))).
  generalize (clear_keys (set_avg_fps (Fin (-1)) (set_avg_frametime (Fin (-1))
                      (set_flags 1 (set_height h (set_width w (set_win 0 app))))))).
  intros a.
  destruct (drv_glfwInit drv); [| split; reflexivity]. cbn.
  destruct (drv_glfwCreateWindow drv =? 0); [split; reflexivity |].
  destruct (drv_gladLoadGL drv); split; reflexivity.
Qed.

(** X7: [initBaseApp] succeeds exactly when GLFW initialises, the window is
    created and glad loads.  Whether it succeeds or not, and whatever the
    structure held before, it leaves the flags set, no program, the size
    asked for, both averages at -1 and every key of both arrays not
    pressed. *)
Theorem initBaseApp_outcome w h title t app wd :
  keys_sized app ->
  let r := initBaseApp drv w h title t app wd in
  let app' := snd (fst r) in
  fst (fst r)
  = drv_glfwInit drv && negb (drv_glfwCreateWindow drv =? 0) && drv_gladLoadGL drv
  /\ flags app' = 1 /\ program app' = 0 /\ width app' = w /\ height app' = h
  /\ avg_frametime app' = Fin (-1) /\ avg_fps app' = Fin (-1)
  /\ pressedKeys app' = replicate (Z.to_nat (GLFW_KEY_LAST + 1)) false
  /\ releasedKeys app' = replicate (Z.to_nat (GLFW_KEY_LAST + 1)) false.
Proof.
  intros [Hp Hr].
  destruct (initBaseApp_facts drv w h title t app wd)
    as (H1 & (H2 & H3 & H4 & H5 & H6 & H7) & _).
  destruct (initBaseApp_keys w h title t app wd) as [K1 K2].
  cbv zeta in *. repeat split; try assumption.
  - rewrite K1, <- Hp. apply clear_all.
  - rewrite K2, <- Hr. apply clear_all.
Qed.

(** X8: a start that fails has made no call into the GL, created no GL
    object and taken no name: [gladLoadGL], which loads the entry points of
    the GL, was not reached or has failed.  The [destroy] that follows does
    not hold back, the flags being set already: the first call it makes is
    [glBindVertexArray(0)], a call into the GL.  Nothing is stated about
    what comes after that call. *)
Theorem destroy_after_failed_start w h title t app wd :
  let r := initBaseApp drv w h title t app wd in
  fst (fst r) = false ->
  (drv_glfwInit drv && negb (drv_glfwCreateWindow drv =? 0) && drv_gladLoadGL drv = false)
  /\ (exists cs, calls_between wd (snd r) cs
                 /\ Forall (fun c => is_gl_call c = false) cs)
  /\ next_name (snd r) = next_name wd
  /\ (exists rest,
        calls_between (snd r) (snd (destroy (snd (fst r)) (snd r)))
                      (glBindVertexArray 0 :: rest))
  /\ is_gl_call (glBindVertexArray 0) = true.
Proof.
  intros r Hfail.
  destruct (initBaseApp_facts drv w h title t app wd)
    as (Hres & (Hf & Hp & _) & Hw & Hclean & _).
  fold r in Hres, Hf, Hp, Hw, Hclean. cbv zeta in Hres, Hf, Hp, Hw, Hclean.
  destruct (Hclean Hfail) as (Ha & H0 & H1 & Hn).
  rewrite Hfail in Hres.
  split; [now symmetry |]. split; [| split; [exact Hn | split; [| reflexivity]]].
  - clear Hf Hp Hw Hclean Ha H0 H1 Hn Hfail. subst r. unfold initBaseApp. cbv zeta.
    destruct (clear_keys_other
                (set_avg_fps (Fin (-1)) (set_avg_frametime (Fin (-1))
                   (set_flags 1 (set_height h (set_width w (set_win 0 app)))))))
      as (pk & rk & E).
    rewrite E. clear E.
    destruct (drv_glfwInit drv); cbn [negb andb] in *.
    2: { exists [info "initializing GLFW" []; warn "Failed to initialze GLFW" []].
         split; [reflexivity | repeat constructor]. }
    unfold bind at 1. cbn [call fst snd]. unfold bind at 1. cbn [call fst snd].
    unfold bind at 1. cbn [call fst snd].
    change (win (set_win (drv_glfwCreateWindow drv) _)) with (drv_glfwCreateWindow drv).
    destruct (drv_glfwCreateWindow drv =? 0); cbn [negb andb] in *.
    { exists [info "initializing GLFW" []; glfwWindowHints;
              info "creating window and OpenGL context" [];
              warn "failed to get window with OpenGL 3.2 core context" []].
      split; [reflexivity | repeat constructor]. }
    unfold bind at 1. cbn [call fst snd]. unfold bind at 1. cbn [call fst snd].
    unfold bind at 1. cbn [call fst snd]. unfold bind at 1. cbn [call fst snd].
    destruct (drv_gladLoadGL drv); [discriminate |]. cbn [negb].
    exists [info "initializing GLFW" []; glfwWindowHints;
            info "creating window and OpenGL context" [];
            glfwSetCallbacks (drv_glfwCreateWindow drv);
            glfwMakeContextCurrent (drv_glfwCreateWindow drv);
            glfwSwapInterval 1;
            info "initializing glad" [];
            warn "failed to intialize OpenGL functions via glad" []].
    split; [reflexivity | repeat constructor].
  - exists ((if drv_glfwInit drv && negb (drv_glfwCreateWindow drv =? 0)
             then [glfwDestroyWindow (drv_glfwCreateWindow drv)] else [])
            ++ [glfwTerminate]).
    clearbody r. unfold destroy, calls_between. rewrite Hf. cbn [Z.eqb negb].
    unfold bind. rewrite (Cube_destroy_clean _ _ Ha H0 H1). cbn [fst snd].
    rewrite destroyShaders_clean by exact Hp. cbn [fst snd win set_cube]. rewrite Hw.
    destruct (drv_glfwInit drv); cbn [andb]; [| reflexivity].
    destruct (drv_glfwCreateWindow drv =? 0); reflexivity.
Qed.

End Start.

(** X9: what [Cube::initBasic] creates, [Cube::destroy] deletes: the vertex
    array and the two buffers, under the names they were given, and the
    three handles are zero afterwards. *)
Theorem Cube_destroy_after_initBasic drv (c : Cube) (w w' : World) :
  next_name w <> 0 ->
  let n := next_name w in
  let c1 := fst (Cube_initBasic drv c w) in
  let r := Cube_destroy c1 w' in
  calls_between w' (snd r)
    [ glBindVertexArray 0;
      info "Cube: deleting VAO %u" [arg_int n];
      glDeleteVertexArrays n;
      info "Cube: deleting VBOs %u %u" [arg_int (n + 1); arg_int (n + 2)];
      glDeleteBuffers (n + 1) (n + 2) ]
  /\ vao (fst r) = 0 /\ vbo0 (fst r) = 0 /\ vbo1 (fst r) = 0.
Proof.
  intros Hn n c1 r.
  destruct (Cube_initBasic_names drv c w) as (Ha & H0 & H1 & _). fold c1 in Ha, H0, H1.
  fold n in Ha, H0, H1. cbv zeta in Ha, H0, H1.
  split; [| apply Cube_destroy_zeroes].
  unfold r, Cube_destroy, calls_between, bind. clearbody c1.
  cbn [call fst snd]. rewrite Ha.
  destruct (Z.eqb_spec n 0) as [E | _]; [contradiction |]. cbn [negb ret fst snd].
  cbn [vao vbo0 vbo1 set_vao]. rewrite H0, H1.
  destruct (Z.eqb_spec (n + 1) 0) as [E1 | _]; destruct (Z.eqb_spec (n + 2) 0) as [E2 | _];
    try (exfalso; lia); reflexivity.
Qed.

(** X10: the two destructors of GL objects can be called again: a second
    [Cube::destroy] only unbinds the vertex array, a second
    [destroyShaders] does nothing, and neither changes the structure. *)
Theorem object_destructors_idempotent :
  (forall c w w',
      Cube_destroy (fst (Cube_destroy c w)) w'
      = (fst (Cube_destroy c w), snd (call (glBindVertexArray 0) w')))
  /\ (forall app w w',
      destroyShaders (fst (destroyShaders app w)) w' = (fst (destroyShaders app w), w')).
Proof.
  split.
  - intros c w w'. destruct (Cube_destroy_zeroes c w) as (Ha & H0 & H1).
    now apply Cube_destroy_clean.
  - intros app w w'. apply destroyShaders_clean.
    unfold destroyShaders. destruct (Z.eqb_spec (program app) 0); [assumption | reflexivity].
Qed.

(** X11: the index buffer fits the vertex buffer and the draw call: the 36
    indices that [displayFunc] draws are those of the connectivity table,
    every index names one of the 24 vertices, the six indices of a face
    name the four vertices of that face and no other, and the sizes that
    [Cube::initBasic] uploads are those of the two tables. *)
Theorem cube_tables_fit :
  Z.of_nat (length basicCubeConnectivity) = 6 * 6
  /\ Forall (fun i => 0 <= i < Z.of_nat (length basicCubeGeometry)) basicCubeConnectivity
  /\ (forall k i, basicCubeConnectivity !! k = Some i -> i / 4 = Z.of_nat k / 6)
  /\ GEOMETRY_SIZE = Z.of_nat (length basicCubeGeometry) * VERTEX_SIZE
  /\ CONNECTIVITY_SIZE = Z.of_nat (length basicCubeConnectivity) * INDEX_SIZE.
Proof.
  split; [reflexivity |]. split.
  - repeat constructor; cbn; lia.
  - split; [| split; reflexivity].
    intros k i Hk.
    assert (Hlt : (k < 36)%nat) by (apply lookup_lt_Some in Hk; exact Hk).
    do 36 (destruct k as [| k]; [injection Hk as <-; reflexivity |]).
    exfalso. lia.
Qed.

Lemma initBaseApp_outcome_witness :
  keys_sized demo_garbage
  /\ fst (fst (initBaseApp demo_driver 800 600 APP_TITLE 0 demo_garbage demo_world))
     = drv_glfwInit demo_driver && negb (drv_glfwCreateWindow demo_driver =? 0)
       && drv_gladLoadGL demo_driver.
Proof.
  assert (H : keys_sized demo_garbage) by (split; reflexivity).
  split; [exact H |].
  exact (proj1 (initBaseApp_outcome demo_driver 800 600 APP_TITLE 0 demo_garbage demo_world H)).
Defined.

(** A world in which the window cannot be created. *)
Lemma destroy_after_failed_start_witness :
  let drv := {| drv_NDEBUG := true; drv_glGetError := fun _ => [];
                drv_glfwInit := true; drv_glfwCreateWindow := 0; drv_gladLoadGL := true;
                drv_fopen := fun _ => None; drv_malloc := fun _ => true;
                drv_compile := fun _ _ => true; drv_link := fun _ _ => false;
                drv_glGetUniformLocation := fun _ _ => -1 |} in
  let r := initBaseApp drv 800 600 APP_TITLE 0 demo_garbage demo_world in
  fst (fst r) = false /\ next_name (snd r) = next_name demo_world.
Proof.
  intros drv r. split; [reflexivity |].
  exact (proj1 (proj2 (proj2 (destroy_after_failed_start drv 800 600 APP_TITLE 0
                                demo_garbage demo_world eq_refl)))).
Defined.

Lemma Cube_destroy_after_initBasic_witness :
  next_name demo_world <> 0
  /\ vao (fst (Cube_destroy (fst (Cube_initBasic demo_driver (cube demo_garbage) demo_world))
                            demo_running)) = 0.
Proof.
  assert (H : next_name demo_world <> 0) by discriminate.
  split; [exact H |].
  exact (proj1 (proj2 (Cube_destroy_after_initBasic demo_driver (cube demo_garbage) demo_world
                         demo_running H))).
Defined.

(** * More on the keyboard, the window and the loop *)

Section Events.
Variable drv : Driver.

(** One event and one slot of [pressedKeys]. *)
Lemma dispatch_key_slot key e app w :
  0 <= key <= GLFW_KEY_LAST ->
  (Z.to_nat key < length (pressedKeys app))%nat ->
  let app' := fst (dispatch drv app e w) in
  length (pressedKeys app') = length (pressedKeys app)
  /\ pressedKeys app' !! Z.to_nat key
     = match e with
       | key_event k _ a _ =>
           if k =? key then Some (negb (a =? GLFW_RELEASE))
           else pressedKeys app !! Z.to_nat key
       | _ => pressedKeys app !! Z.to_nat key
       end.
Proof.
  intros Hk Hlen. destruct e as [k sc a m | |]; cbn [dispatch]; [| now split | now split].
  unfold callback_Keyboard.
  destruct ((k <? 0) || (k >? GLFW_KEY_LAST)) eqn:Hr.
  - cbn. split; [reflexivity |].
    destruct (Z.eqb_spec k key) as [-> | _]; [| reflexivity].
    rewrite key_in_range in Hr by exact Hk. discriminate.
  - apply orb_false_iff in Hr. destruct Hr as [Hr1 Hr2].
    assert (Hset : forall b app1, pressedKeys app1 = pressedKeys app ->
              length (pressedKeys (set_key k b app1)) = length (pressedKeys app)
              /\ pressedKeys (set_key k b app1) !! Z.to_nat key
                 = (if k =? key then Some b else pressedKeys app !! Z.to_nat key)).
    { intros b app1 E. unfold set_key. cbn [pressedKeys set_pressedKeys]. rewrite E.
      split; [apply length_insert |].
      destruct (Z.eqb_spec k key) as [-> | Hne].
      - now apply list_lookup_insert_eq.
      - apply list_lookup_insert_ne. lia. }
    destruct (a =? GLFW_RELEASE); cbn [negb].
    + cbn [ret fst]. now apply Hset.
    + unfold bind, ret. cbn [fst snd]. apply Hset.
      destruct (negb (key_down app k)); [apply handle_key_keys | reflexivity].
Qed.

Lemma glfwPollEvents_key_slot key evs app w :
  0 <= key <= GLFW_KEY_LAST ->
  (Z.to_nat key < length (pressedKeys app))%nat ->
  let app' := fst (glfwPollEvents drv evs app w) in
  length (pressedKeys app') = length (pressedKeys app)
  /\ pressedKeys app' !! Z.to_nat key
     = match last_action key evs with
       | Some a => Some (negb (a =? GLFW_RELEASE))
       | None => pressedKeys app !! Z.to_nat key
       end.
Proof.
  intros Hk. revert app w. induction evs as [| e evs IH]; intros app w Hlen; [now split |].
  cbv zeta. rewrite glfwPollEvents_cons.
  destruct (dispatch_key_slot key e app w Hk Hlen) as [L1 S1]. cbv zeta in L1, S1.
  destruct (IH (fst (dispatch drv app e w)) (snd (dispatch drv app e w))) as [L2 S2].
  { now rewrite L1. }
  cbv zeta in L2, S2. split; [congruence |].
  rewrite S2. cbn [last_action]. destruct (last_action key evs); [reflexivity |].
  rewrite S1. destruct e as [k sc a m | |]; try reflexivity.
  destruct (k =? key); reflexivity.
Qed.

(** X12: after the events of a tick, the slot of a key tells whether the
    last event for that key was a press (or repeat) rather than a release;
    a key without an event keeps its slot, and the array keeps its
    length. *)
Theorem pressedKeys_tracks_last_event key evs app w :
  0 <= key <= GLFW_KEY_LAST ->
  (Z.to_nat key < length (pressedKeys app))%nat ->
  let app' := fst (glfwPollEvents drv evs app w) in
  length (pressedKeys app') = length (pressedKeys app)
  /\ pressedKeys app' !! Z.to_nat key
     = match last_action key evs with
       | Some a => Some (negb (a =? GLFW_RELEASE))
       | None => pressedKeys app !! Z.to_nat key
       end.
Proof. apply glfwPollEvents_key_slot. Qed.

Lemma glfwPollEvents_app evs1 evs2 app w :
  glfwPollEvents drv (evs1 ++ evs2) app w
  = glfwPollEvents drv evs2 (fst (glfwPollEvents drv evs1 app w))
                   (snd (glfwPollEvents drv evs1 app w)).
Proof.
  revert app w. induction evs1 as [| e evs1 IH]; intros app w; [reflexivity |].
  cbn [Datatypes.app]. rewrite !glfwPollEvents_cons. apply IH.
Qed.

(** X13: the Escape key leaves the loop.  When the first Escape event of a
    tick is a press (or repeat) and Escape was not down before, the close
    flag is set, and the loop is left after this iteration, whatever the
    other events of the tick are. *)
Theorem escape_leaves_loop tk ticks lv app w evs1 evs2 scancode action mods :
  events tk = evs1 ++ key_event GLFW_KEY_ESCAPE scancode action mods :: evs2 ->
  action <> GLFW_RELEASE ->
  last_action GLFW_KEY_ESCAPE evs1 = None ->
  pressedKeys app !! Z.to_nat GLFW_KEY_ESCAPE = Some false ->
  should_close (snd (loop_body drv tk lv app w)) = true
  /\ fst (fst (main_while drv (tk :: ticks) lv app w)) = true.
Proof.
  intros Hev Ha Hlast Hup.
  assert (Hesc : 0 <= GLFW_KEY_ESCAPE <= GLFW_KEY_LAST)
    by (unfold GLFW_KEY_ESCAPE, GLFW_KEY_LAST; lia).
  assert (Hbody : should_close (snd (loop_body drv tk lv app w)) = true).
  { unfold loop_body, bind. cbn [ret fst snd]. rewrite Hev, glfwPollEvents_app.
    match goal with |- context [glfwPollEvents drv evs1 ?a ?v] =>
      set (app1 := a); set (w1 := v) end.
    assert (Hup1 : pressedKeys app1 !! Z.to_nat GLFW_KEY_ESCAPE = Some false).
    { unfold app1, update_fps_estimate. cbn. destruct (Qle_bool 1 _); exact Hup. }
    clearbody app1 w1.
    destruct (glfwPollEvents_key_slot GLFW_KEY_ESCAPE evs1 app1 w1 Hesc) as [_ Hs].
    { eapply lookup_lt_Some, Hup1. }
    rewrite Hlast, Hup1 in Hs.
    set (app2 := fst (glfwPollEvents drv evs1 app1 w1)) in *.
    set (w2 := snd (glfwPollEvents drv evs1 app1 w1)). clearbody app2 w2.
    rewrite glfwPollEvents_cons. cbn [dispatch].
    rewrite callback_Keyboard_edge by (auto; now apply key_down_lookup).
    cbn [fst snd].
    apply quiet_glfwPollEvents. reflexivity. }
  split; [exact Hbody |].
  rewrite main_while_cons. destruct (should_close w); [reflexivity |].
  destruct ticks; [rewrite main_while_nil | rewrite main_while_cons]; now rewrite Hbody.
Qed.

End Events.

Lemma pressedKeys_tracks_last_event_witness :
  0 <= 65 <= GLFW_KEY_LAST
  /\ (Z.to_nat 65 < length (pressedKeys demo_garbage))%nat
  /\ pressedKeys (fst (glfwPollEvents demo_driver
                         [key_event 65 0 GLFW_PRESS 0; key_event 66 0 GLFW_PRESS 0;
                          key_event 65 0 GLFW_RELEASE 0] demo_garbage demo_world))
       !! Z.to_nat 65
     = match last_action 65 [key_event 65 0 GLFW_PRESS 0; key_event 66 0 GLFW_PRESS 0;
                             key_event 65 0 GLFW_RELEASE 0] with
       | Some a => Some (negb (a =? GLFW_RELEASE))
       | None => pressedKeys demo_garbage !! Z.to_nat 65
       end.
Proof.
  assert (H1 : 0 <= 65 <= GLFW_KEY_LAST) by (unfold GLFW_KEY_LAST; lia).
  assert (H2 : (Z.to_nat 65 < length (pressedKeys demo_garbage))%nat) by (vm_compute; lia).
  split; [exact H1 |]. split; [exact H2 |].
  exact (proj2 (pressedKeys_tracks_last_event demo_driver 65
                  [key_event 65 0 GLFW_PRESS 0; key_event 66 0 GLFW_PRESS 0;
                   key_event 65 0 GLFW_RELEASE 0] demo_garbage demo_world H1 H2)).
Defined.

Lemma escape_leaves_loop_witness :
  let tk := {| now := 1 # 2;
               events := [key_event 65 0 GLFW_PRESS 0;
                          key_event GLFW_KEY_ESCAPE 0 GLFW_PRESS 0; resize_event 4 3] |} in
  let lv := {| frame := 0; frames_total := 0; start_time := 0; last_time := 0 |} in
  (GLFW_PRESS <> GLFW_RELEASE
   /\ last_action GLFW_KEY_ESCAPE [key_event 65 0 GLFW_PRESS 0] = None
   /\ pressedKeys demo_app !! Z.to_nat GLFW_KEY_ESCAPE = Some false)
  /\ fst (fst (main_while demo_driver [tk; idle_tick 1] lv demo_app demo_running)) = true.
Proof.
  intros tk lv.
  assert (H1 : GLFW_PRESS <> GLFW_RELEASE) by discriminate.
  assert (H2 : last_action GLFW_KEY_ESCAPE [key_event 65 0 GLFW_PRESS 0] = None)
    by reflexivity.
  assert (H3 : pressedKeys demo_app !! Z.to_nat GLFW_KEY_ESCAPE = Some false)
    by (vm_compute; reflexivity).
  split; [now repeat split |].
  exact (proj2 (escape_leaves_loop demo_driver tk [idle_tick 1] lv demo_app demo_running
                  [key_event 65 0 GLFW_PRESS 0] [resize_event 4 3] 0 GLFW_PRESS 0
                  eq_refl H1 H2 H3)).
Defined.

(** * What every reachable state has *)

Lemma clear_length (l : list bool) (xs : list nat) :
  length (foldl (fun l i => <[i := false]> l) l xs) = length l.
Proof.
  revert l. induction xs as [| x xs IH]; intros l; [reflexivity |].
  cbn [foldl]. rewrite IH. apply length_insert.
Qed.

Section Invariant.
Variable drv : Driver.

Lemma dispatch_length e app w :
  length (pressedKeys (fst (dispatch drv app e w))) = length (pressedKeys app).
Proof.
  destruct e as [k sc a m | |]; cbn [dispatch]; [| reflexivity | reflexivity].
  unfold callback_Keyboard.
  destruct ((k <? 0) || (k >? GLFW_KEY_LAST)); [reflexivity |].
  destruct (a =? GLFW_RELEASE); cbn [negb].
  - cbn [ret fst]. unfold set_key. cbn [pressedKeys set_pressedKeys]. apply length_insert.
  - unfold bind, ret. cbn [fst snd]. unfold set_key. cbn [pressedKeys set_pressedKeys].
    rewrite length_insert.
    destruct (negb (key_down app k)); [now rewrite handle_key_keys | reflexivity].
Qed.

Lemma glfwPollEvents_length evs app w :
  length (pressedKeys (fst (glfwPollEvents drv evs app w))) = length (pressedKeys app).
Proof.
  revert app w. induction evs as [| e evs IH]; intros app w; [reflexivity |].
  rewrite glfwPollEvents_cons, IH. apply dispatch_length.
Qed.

Lemma loop_body_pressedKeys_length tk lv app w :
  length (pressedKeys (snd (fst (loop_body drv tk lv app w)))) = length (pressedKeys app).
Proof.
  unfold loop_body, bind. cbn [ret fst snd]. rewrite glfwPollEvents_length.
  unfold update_fps_estimate. cbn. destruct (Qle_bool 1 _); reflexivity.
Qed.

Lemma destroy_pressedKeys_flags app w :
  pressedKeys (fst (destroy app w)) = pressedKeys app
  /\ flags (fst (destroy app w)) = flags app.
Proof.
  unfold destroy. destruct (negb (flags app =? 0)); [| now split].
  unfold bind. cbn. unfold destroyShaders. cbn.
  destruct (negb (program app =? 0)); now split.
Qed.

(** X14: the structure keeps its shape.  From [initBaseApp] on, whatever
    the program does to the structure, both key arrays keep their
    [GLFW_KEY_LAST + 1] slots, so that every key code [callback_Keyboard]
    lets through indexes a slot that exists, and the flag that tells
    [destroy] to shut GLFW down stays set. *)
Theorem reachable_shape app :
  reachable drv app ->
  keys_sized app
  /\ flags app = 1
  /\ forall key, 0 <= key <= GLFW_KEY_LAST -> is_Some (pressedKeys app !! Z.to_nat key).
Proof.
  intros H.
  assert (G : keys_sized app /\ flags app = 1).
  { induction H as [w h title t app0 wd Hp Hr | vs fs app wd H IH
                    | key sc a m app wd H IH | w h app wd H IH
                    | tk lv app wd H IH | app wd H IH].
    - destruct (initBaseApp_keys drv w h title t app0 wd) as [Ep Er]. cbv zeta in Ep, Er.
      destruct (initBaseApp_facts drv w h title t app0 wd) as (_ & (Hf & _) & _).
      cbv zeta in Hf. split; [| exact Hf].
      split; [rewrite Ep | rewrite Er]; rewrite clear_length; assumption.
    - destruct (initShaders_app drv vs fs app wd) as (p & lp & lm & lt & lc & E).
      rewrite E. exact IH.
    - destruct IH as [[Hp Hr] Hf].
      pose proof (dispatch_scene drv app (key_event key sc a m) wd) as Hs.
      pose proof (dispatch_length (key_event key sc a m) app wd) as Hl.
      cbn [dispatch] in Hs, Hl. unfold scene_kept in Hs.
      destruct Hs as (_ & Hf' & _ & _ & _ & _ & Hr' & _).
      unfold keys_sized. now rewrite Hl, Hr', Hf'.
    - exact IH.
    - destruct IH as [[Hp Hr] Hf]. unfold keys_sized.
      now rewrite loop_body_pressedKeys_length, loop_body_releasedKeys, loop_body_flags.
    - destruct IH as [[Hp Hr] Hf]. unfold keys_sized.
      destruct (destroy_pressedKeys_flags app wd) as [E1 E2].
      now rewrite E1, E2, destroy_releasedKeys. }
  destruct G as [[Hp Hr] Hf]. repeat split; try assumption.
  intros key Hk. apply lookup_lt_is_Some. rewrite Hp.
  unfold GLFW_KEY_LAST in *. lia.
Qed.

End Invariant.

Lemma reachable_shape_witness :
  keys_sized demo_app /\ flags demo_app = 1.
Proof.
  split.
  - exact (proj1 (reachable_shape demo_driver demo_app demo_app_reachable)).
  - exact (proj1 (proj2 (reachable_shape demo_driver demo_app demo_app_reachable))).
Defined.

(** * Divisions by zero *)

Lemma ddiv_by_zero (x : Z) :
  ddiv (inject_Z x) (inject_Z 0)
  = if x =? 0 then NaN else if 0 <? x then PosInf else NegInf.
Proof.
  unfold ddiv. replace (Qeq_bool (inject_Z 0) 0) with true by reflexivity.
  destruct (Z.eqb_spec x 0) as [-> | Hx]; [reflexivity |].
  destruct (Qeq_bool (inject_Z x) 0) eqn:E.
  { apply Qeq_bool_iff in E. unfold Qeq in E. cbn in E. lia. }
  destruct (Z.ltb_spec 0 x) as [Hp | Hn].
  - rewrite Qle_bool_true; [reflexivity |]. unfold Qle. cbn. lia.
  - rewrite Qle_bool_false; [reflexivity |]. unfold Qlt. cbn. lia.
Qed.

Section Zero.
Variable drv : Driver.

(** X15: a framebuffer of height 0.  [callback_Resize] stores whatever size
    it is told, and [displayFunc] divides the width by the height without
    looking: after a resize to height 0 the next frame hands
    [glm::perspective] an infinite aspect ratio, or NaN when the width is 0
    as well, sets a viewport without area, and still draws the cube. *)
Theorem resize_to_zero_height w app wd wd' :
  let app1 := fst (callback_Resize w 0 app wd) in
  let r := displayFunc drv app1 wd' in
  let aspect := if w =? 0 then NaN else if 0 <? w then PosInf else NegInf in
  projection (fst r) = perspective half_pi_float aspect (1 # 10) 10
  /\ In (glViewport 0 0 w 0) (trace (snd r))
  /\ In (glUniformMatrix4fv (locProjection app)
                            (perspective half_pi_float aspect (1 # 10) 10))
        (trace (snd r))
  /\ draw_count (snd r) = draw_count wd' + 1.
Proof.
  cbv zeta. rewrite displayFunc_draw_count.
  unfold callback_Resize, displayFunc, bind.
  cbn [call ret fst snd trace width height set_width set_height set_projection set_view
       set_cube projection locProjection].
  rewrite ddiv_by_zero, GL_ERROR_DBG_world. cbn [snd trace].
  repeat split; try reflexivity; apply in_or_app; right; cbn [In]; tauto.
Qed.

(** X16: an estimate without a frame.  When the estimate is refreshed
    before any frame was counted, as on a first pass of the loop that comes
    a second or more after the loop was entered, the frame time is a
    division by zero: the title shows an infinite frame time and 0 fps. *)
Theorem refresh_without_frames tk lv app w :
  frame lv = 0 ->
  (1 <= now tk - last_time lv)%Q ->
  let app' := snd (fst (loop_body drv tk lv app w)) in
  avg_frametime app' = PosInf
  /\ exists q, avg_fps app' = Fin q /\ (q == 0)%Q.
Proof.
  intros Hf He. cbv zeta.
  destruct (loop_body_refresh drv tk lv app w He) as (H1 & H2 & _).
  cbv zeta in H1, H2. rewrite H1, H2, Hf. split.
  - unfold ddiv. replace (Qeq_bool (inject_Z 0) 0) with true by reflexivity.
    assert (Hp : (0 < 1000 * (now tk - last_time lv))%Q).
    { apply Qlt_le_trans with (1000 * 1)%Q; [reflexivity |].
      apply Qmult_le_l; [reflexivity | exact He]. }
    destruct (Qeq_bool _ 0) eqn:E.
    { apply Qeq_bool_iff in E. rewrite E in Hp. discriminate. }
    rewrite Qle_bool_true; [reflexivity | now apply Qlt_le_weak].
  - exists (inject_Z 0 / (now tk - last_time lv))%Q. split.
    + apply ddiv_nonzero. intros E. rewrite E in He. exact (Qlt_not_le 0 1 eq_refl He).
    + unfold Qdiv. apply Qmult_0_l.
Qed.

End Zero.

Lemma refresh_without_frames_witness :
  let lv := {| frame := 0; frames_total := 0; start_time := 0; last_time := 0 |} in
  (frame lv = 0 /\ (1 <= now (idle_tick 2) - last_time lv)%Q)
  /\ avg_frametime (snd (fst (loop_body demo_driver (idle_tick 2) lv demo_app demo_running)))
     = PosInf.
Proof.
  intros lv.
  assert (H1 : frame lv = 0) by reflexivity.
  assert (H2 : (1 <= now (idle_tick 2) - last_time lv)%Q) by discriminate.
  split; [now split |].
  exact (proj1 (refresh_without_frames demo_driver (idle_tick 2) lv demo_app demo_running
                  H1 H2)).
Defined.

(** * ShaderHelpers.h: the error check *)

(** The recursion is the do-while loop: one [glGetError] per pass. *)
Lemma getGLError_loop_pass action ignore file line err pending :
  getGLError_loop action ignore file line err pending
  = let e := fst (glGetError pending) in
    let rest := snd (glGetError pending) in
    if e =? GL_NO_ERROR then (err, [], rest)
    else if ignore then getGLError_loop action ignore file line err rest
    else
      let out := match file with Some f => [print_file f] | None => [] end
                 ++ (if line =? 0 then [] else [print_line line])
                 ++ [warn_error e action] in
      let r := getGLError_loop action ignore file line e rest in
      (fst (fst r), out ++ snd (fst r), snd r).
Proof. destruct pending; reflexivity. Qed.

Lemma getGLError_loop_drains action ignore file line err pending :
  Forall (fun e => e <> GL_NO_ERROR) pending ->
  let r := getGLError_loop action ignore file line err pending in
  snd r = []
  /\ fst (fst r) = (if ignore then err else default err (last pending))
  /\ length (List.filter is_warn_error (snd (fst r)))
     = (if ignore then 0%nat else length pending)
  /\ (file = None -> line = 0 ->
      snd (fst r) = if ignore then [] else map (fun e => warn_error e action) pending)
  /\ (ignore = true -> snd (fst r) = []).
Proof.
  intros H. revert err. induction H as [| e rest He _ IH]; intros err.
  - cbn. destruct ignore; repeat split; reflexivity.
  - cbn [getGLError_loop]. apply Z.eqb_neq in He. rewrite He.
    destruct ignore.
    + apply IH.
    + destruct (IH e) as (I1 & I2 & I3 & I4 & _). cbv zeta in *.
      cbn [fst snd]. split; [exact I1 |]. split; [| split; [| split]].
      * rewrite I2, last_cons. destruct (last rest); reflexivity.
      * rewrite !List.filter_app, !length_app, I3.
        destruct file, (line =? 0); reflexivity.
      * intros -> ->. cbn. now rewrite I4.
      * discriminate.
Qed.

(** X17: [getGLError] empties the error state of the context.  It asks
    until no flag is left, warns once for each flag it finds and answers
    the last one found; with [ignore] it prints nothing and answers
    [GL_NO_ERROR] even when flags were set. *)
Theorem getGLError_drains action ignore file line pending :
  Forall (fun e => e <> GL_NO_ERROR) pending ->
  let r := getGLError action ignore file line pending in
  snd r = []
  /\ fst (fst r) = (if ignore then GL_NO_ERROR else default GL_NO_ERROR (last pending))
  /\ length (List.filter is_warn_error (snd (fst r)))
     = (if ignore then 0%nat else length pending)
  /\ (file = None -> line = 0 ->
      snd (fst r) = if ignore then [] else map (fun e => warn_error e action) pending)
  /\ (ignore = true -> snd (fst r) = []).
Proof. intros H. unfold getGLError. now apply getGLError_loop_drains. Qed.

Lemma getGLError_drains_witness :
  Forall (fun e => e <> GL_NO_ERROR) [1280; 1282]
  /\ fst (fst (getGLError "draw" false None 0 [1280; 1282])) = 1282
  /\ fst (fst (getGLError "draw" true None 0 [1280; 1282])) = GL_NO_ERROR.
Proof.
  assert (H : Forall (fun e => e <> GL_NO_ERROR) [1280; 1282])
    by (repeat constructor; discriminate).
  split; [exact H |]. split.
  - exact (proj1 (proj2 (getGLError_drains "draw" false None 0 [1280; 1282] H))).
  - exact (proj1 (proj2 (getGLError_drains "draw" true None 0 [1280; 1282] H))).
Defined.
